(** * slack_backup: incremental fetch, merge and persistence

    A shallow embedding of [slack_backup.py] and the properties of its
    timestamp utilities, paginated fetch loop, snapshot store and merge
    step.

    Conventions.  Python values are the JSON-shaped values the program
    handles ([pyval]); exceptions and the unbounded [while True] loop are
    made explicit in [outcome]; the filesystem, the remote service and the
    log of calls made to it are threaded through a state monad [M].
    Console output ([print]) is left out. *)

From Stdlib Require Import ZArith Ascii String List Bool Lia SpecFloat.
From Stdlib Require Import Sorting.Sorted Sorting.Permutation DecimalString.
From stdpp Require Import base option gmap strings list.

Local Open Scope Z_scope.
Local Set Warnings "-register-all".

(** ** Exceptions and results *)

(** The exception classes the modelled code can meet.  [JSONDecodeError]
    is a subclass of [ValueError] and the [OSError] family are the errors
    of the filesystem calls. *)
Inductive exn :=
| KeyError | ValueError | TypeError | OverflowError | JSONDecodeError
| FileNotFoundError | FileExistsError | IsADirectoryError | OSError
| ProviderError.

(** [except ValueError] also catches the subclasses of [ValueError]. *)
Definition is_ValueError (e : exn) : bool :=
  match e with
  | ValueError | JSONDecodeError => true
  | _ => false
  end.

(** A computation returns, raises, or (for the [while True] loop run with
    a bounded number of iterations) has not finished yet. *)
Inductive outcome (A : Type) :=
| Ok (a : A)
| Raise (e : exn)
| OutOfFuel.
Arguments Ok {A} a.
Arguments Raise {A} e.
Arguments OutOfFuel {A}.

Definition obind {A B} (x : outcome A) (k : A -> outcome B) : outcome B :=
  match x with
  | Ok a => k a
  | Raise e => Raise e
  | OutOfFuel => OutOfFuel
  end.

Declare Scope py_scope.
Delimit Scope py_scope with py.
Notation "'try!' x ':=' c 'in' k" := (obind c (fun x => k))
  (at level 10, x name, c at level 100, k at level 200) : py_scope.
Local Open Scope py_scope.

(** [[f(x) for x in l]]: left to right, the first exception aborts. *)
Fixpoint omap {A B} (f : A -> outcome B) (l : list A) : outcome (list B) :=
  match l with
  | [] => Ok []
  | x :: l' =>
      try! y := f x in
      try! ys := omap f l' in
      Ok (y :: ys)
  end.

(** [[x for x in l if p(x)]] with a condition that may raise. *)
Fixpoint ofilter {A} (p : A -> outcome bool) (l : list A) : outcome (list A) :=
  match l with
  | [] => Ok []
  | x :: l' =>
      try! b := p x in
      try! ys := ofilter p l' in
      Ok (if b then x :: ys else ys)
  end.

(** ** Floating point

    Python's [float] is an IEEE 754 binary64 number; it is modelled by the
    standard library's [spec_float] at precision 53. *)
Module Float.

Definition prec : Z := 53.
Definition emax : Z := 1024.

Abbreviation float := spec_float.

Definition zero : float := S754_zero false.

(** [a > b] and [a < b] on floats; both are [False] when a NaN is
    involved. *)
Definition gt (a b : float) : bool := SFltb b a.
Definition lt (a b : float) : bool := SFltb a b.
Definition le (a b : float) : bool := SFleb a b.

Definition is_nan (a : float) : bool :=
  match a with S754_nan => true | _ => false end.

(** [float(z)] for an integer: the nearest binary64 number, ties to
    even; integers beyond the largest float raise [OverflowError]. *)
Definition of_Z (z : Z) : outcome float :=
  match binary_normalize prec emax z 0 false with
  | S754_infinity _ => Raise OverflowError
  | f => Ok f
  end.

(** The float nearest to [(-1)^s * n / d], ties to even ([d] positive). *)
Definition of_ratio (s : bool) (n : Z) (d : positive) : float :=
  match n with
  | Zpos n' => SFdiv prec emax (S754_finite s n' 0) (S754_finite false d 0)
  | _ => S754_zero s
  end.

(** The float nearest to [(-1)^s * n * 10^x]. *)
Definition of_decimal (s : bool) (n : Z) (x : Z) : float :=
  match n with
  | Zpos _ =>
      if 0 <=? x
      then binary_normalize prec emax ((if s then - n else n) * 10 ^ x) 0 s
      else of_ratio s n (Z.to_pos (10 ^ (- x)))
  | _ => S754_zero s
  end.

(** [int(f)]: truncation toward zero; [int] of an infinity raises
    [OverflowError] and [int] of a NaN raises [ValueError]. *)
Definition trunc (f : float) : outcome Z :=
  match f with
  | S754_zero _ => Ok 0
  | S754_infinity _ => Raise OverflowError
  | S754_nan => Raise ValueError
  | S754_finite s m e =>
      let a := if 0 <=? e then Z.shiftl (Zpos m) e else Z.shiftr (Zpos m) (- e) in
      Ok (if s then - a else a)
  end.

(** Exact comparisons between an integer and a float, as Python's
    mixed [int]/[float] comparisons are: [z < f] and [f < z] on the real
    values, for [f = (-1)^s * m * 2^e]. *)
Definition Z_lt (z : Z) (f : float) : bool :=
  match f with
  | S754_zero _ => z <? 0
  | S754_infinity s => negb s
  | S754_nan => false
  | S754_finite s m e =>
      let v := if s then Zneg m else Zpos m in
      if 0 <=? e then z <? v * 2 ^ e else z * 2 ^ (- e) <? v
  end.

Definition lt_Z (f : float) (z : Z) : bool :=
  match f with
  | S754_zero _ => 0 <? z
  | S754_infinity s => s
  | S754_nan => false
  | S754_finite s m e =>
      let v := if s then Zneg m else Zpos m in
      if 0 <=? e then v * 2 ^ e <? z else v <? z * 2 ^ (- e)
  end.

(** A float with a fractional part. *)
Definition fractional (f : float) : bool :=
  match f with
  | S754_finite _ m e =>
      if 0 <=? e then false else negb (Zpos m mod 2 ^ (- e) =? 0)
  | _ => false
  end.

(** Strictly positive, finite or not. *)
Definition is_positive (f : float) : bool := SFltb zero f.

(** Neither an infinity nor a NaN. *)
Definition finite (f : float) : bool :=
  match f with
  | S754_zero _ | S754_finite _ _ _ => true
  | _ => false
  end.

End Float.
Export Float(float).

(** ** Python values *)

(** The values the program handles are those [json.load] and the API
    client produce: JSON documents.  Objects are dictionaries keyed by
    strings; as a finite map a dictionary is equal to any reordering of
    itself, which is Python's [==] on [dict].  A [PFloat] holds a
    binary64 number in canonical form ([valid_binary]), as every float
    the program computes is. *)
Inductive pyval :=
| PNone
| PBool (b : bool)
| PInt (z : Z)
| PFloat (f : float)
| PStr (s : string)
| PList (l : list pyval)
| PDict (d : gmap string pyval).

(** [v[key]] for a string key: a lookup on a dictionary ([KeyError] when
    the key is absent); lists, strings and scalars do not accept a string
    index ([TypeError]). *)
Definition py_getitem (v : pyval) (key : string) : outcome pyval :=
  match v with
  | PDict d =>
      match d !! key with
      | Some x => Ok x
      | None => Raise KeyError
      end
  | _ => Raise TypeError
  end.

(** [for x in v]: the elements of a list, the characters of a string, the
    keys of a dictionary; the other values are not iterable.  (The order
    of the keys plays no role: the program indexes each element with
    ['ts'], which a string refuses.) *)
Definition py_iter (v : pyval) : outcome (list pyval) :=
  match v with
  | PList l => Ok l
  | PStr s => Ok (map (fun c => PStr (String c EmptyString)) (list_ascii_of_string s))
  | PDict d => Ok (map (fun kv => PStr kv.1) (map_to_list d))
  | _ => Raise TypeError
  end.

(** *** [float(s)] on text

    The interpreter's conversion: surrounding whitespace is dropped, an
    underscore may separate two digits, then comes a sign and either a
    decimal numeral with optional fraction and exponent, or one of
    [inf], [infinity], [nan] in any letter case.  Anything else is a
    [ValueError].  The numeral is rounded to the nearest binary64.
    (ASCII text only.) *)
Module FloatText.

Definition is_space (c : ascii) : bool :=
  let n := nat_of_ascii c in
  ((9 <=? n) && (n <=? 13))%nat || (n =? 32)%nat.

Definition is_digit (c : ascii) : bool :=
  let n := nat_of_ascii c in ((48 <=? n) && (n <=? 57))%nat.

Definition digit_val (c : ascii) : Z := Z.of_nat (nat_of_ascii c) - 48.

Definition lower (c : ascii) : ascii :=
  let n := nat_of_ascii c in
  if ((65 <=? n) && (n <=? 90))%nat then ascii_of_nat (n + 32) else c.

Fixpoint lstrip (s : list ascii) : list ascii :=
  match s with
  | c :: s' => if is_space c then lstrip s' else s
  | [] => []
  end.

Definition strip (s : list ascii) : list ascii :=
  rev (lstrip (rev (lstrip s))).

(** Drops the underscores; [None] when one of them is not between two
    digits.  [prev] tells whether the previous character was a digit. *)
Fixpoint drop_underscores (prev : bool) (s : list ascii) : option (list ascii) :=
  match s with
  | [] => Some []
  | c :: s' =>
      if Ascii.eqb c "_"
      then match s' with
           | d :: _ => if prev && is_digit d then drop_underscores false s' else None
           | [] => None
           end
      else option_map (cons c) (drop_underscores (is_digit c) s')
  end.

(** Reads a run of digits: the number read so far, how many digits were
    read, and the rest of the text. *)
Fixpoint digits (s : list ascii) (acc : Z) (n : Z) : Z * Z * list ascii :=
  match s with
  | c :: s' => if is_digit c then digits s' (10 * acc + digit_val c) (n + 1)
               else (acc, n, s)
  | [] => (acc, n, [])
  end.

Definition sign (s : list ascii) : bool * list ascii :=
  match s with
  | "-"%char :: s' => (true, s')
  | "+"%char :: s' => (false, s')
  | _ => (false, s)
  end.

Definition keyword (neg : bool) (s : list ascii) : option float :=
  let w := string_of_list_ascii (map lower s) in
  if (String.eqb w "inf" || String.eqb w "infinity")%string
  then Some (S754_infinity neg)
  else if String.eqb w "nan" then Some S754_nan
  else None.

Definition numeral (neg : bool) (s : list ascii) : option float :=
  let '(ip, ni, s1) := digits s 0 0 in
  let '(mant, nf, s2) :=
    match s1 with
    | "."%char :: r => digits r ip 0
    | _ => (ip, 0, s1)
    end in
  if ni + nf =? 0 then None
  else match s2 with
       | [] => Some (Float.of_decimal neg mant (- nf))
       | c :: r =>
           if Ascii.eqb (lower c) "e"
           then let '(eneg, r1) := sign r in
                let '(x, nx, r2) := digits r1 0 0 in
                match r2 with
                | [] => if nx =? 0 then None
                        else Some (Float.of_decimal neg mant ((if eneg then - x else x) - nf))
                | _ => None
                end
           else None
       end.

Definition parse (s : string) : option float :=
  match drop_underscores false (strip (list_ascii_of_string s)) with
  | None => None
  | Some t =>
      let '(neg, body) := sign t in
      match keyword neg body with
      | Some f => Some f
      | None => numeral neg body
      end
  end.

End FloatText.

(** [float(v)]: a number is converted, text is parsed, anything else is a
    [TypeError]. *)
Definition py_float (v : pyval) : outcome float :=
  match v with
  | PFloat f => Ok f
  | PInt z => Float.of_Z z
  | PBool b => Ok (if b then S754_finite false 4503599627370496 (-52) else Float.zero)
  | PStr s =>
      match FloatText.parse s with
      | Some f => Ok f
      | None => Raise ValueError
      end
  | PNone | PList _ | PDict _ => Raise TypeError
  end.

(** [max(l)] on a list of floats: [ValueError] on the empty list;
    otherwise the first element is the candidate and a later element
    replaces it when it compares greater. *)
Definition py_max (l : list float) : outcome float :=
  match l with
  | [] => Raise ValueError
  | x :: l' => Ok (fold_left (fun m y => if Float.gt y m then y else m) l' x)
  end.

(** [l.sort(key=key)]: the keys are computed first (an exception leaves
    the list alone), then the list is sorted on them with [<], equal keys
    keeping their order.  For keys that are totally ordered by [<] (no
    NaN) the result does not depend on the sorting algorithm, and this
    is the list [list.sort] gives; with a NaN among the keys the order
    [list.sort] leaves is not modelled. *)
Section Sort.
Context {A : Type}.

Fixpoint insert_by_key (x : float * A) (l : list (float * A)) : list (float * A) :=
  match l with
  | [] => [x]
  | y :: l' =>
      if Float.lt y.1 x.1 then y :: insert_by_key x l' else x :: y :: l'
  end.

Definition sort_keyed (l : list (float * A)) : list (float * A) :=
  foldr insert_by_key [] l.

Definition py_sort (key : A -> outcome float) (l : list A) : outcome (list A) :=
  try! ks := omap key l in
  Ok (map snd (sort_keyed (zip ks l))).
End Sort.

(** ** The filesystem

    Paths are compared as written (no normalisation of [.] or [..]).  A
    name refers to an inode and an open file keeps its inode when the name
    is renamed.  The text of a file is either a complete JSON document or
    something [json.load] rejects: the empty file, or a proper prefix of a
    document that is still being written. *)
Module Fs.

Inductive content :=
| Text (doc : pyval)
| Partial.

Record fs := {
  dirs : gset string;          (* existing directories *)
  names : gmap string nat;     (* regular files: path to inode *)
  inodes : gmap nat content;   (* what each inode holds on disk *)
}.

(** What a reader finds at [p]. *)
Definition read (d : fs) (p : string) : option content :=
  i ← names d !! p; inodes d !! i.

(** [os.path.exists]. *)
Definition exists_ (d : fs) (p : string) : bool :=
  bool_decide (p ∈ dirs d) || bool_decide (is_Some (names d !! p)).

(** [os.path.dirname]: the text up to the last slash, without the
    trailing slashes unless it consists of slashes only. *)
Fixpoint rstrip_slash (r : list ascii) : list ascii :=
  match r with
  | "/"%char :: r' => rstrip_slash r'
  | _ => r
  end.

Fixpoint after_last_slash (r : list ascii) : list ascii :=
  match r with
  | [] => []
  | "/"%char :: _ => r
  | _ :: r' => after_last_slash r'
  end.

Definition dirname (p : string) : string :=
  let head := after_last_slash (rev (list_ascii_of_string p)) in
  match rstrip_slash head with
  | [] => string_of_list_ascii (rev head)
  | stripped => string_of_list_ascii (rev stripped)
  end.

(** [os.path.join dir name] for a relative [name]. *)
Definition join (dir name : string) : string :=
  match rev (list_ascii_of_string dir) with
  | [] => name
  | "/"%char :: _ => dir +:+ name
  | _ => dir +:+ "/" +:+ name
  end.

(** The directories [os.makedirs d] creates: [d] and its ancestors. *)
Fixpoint ancestors (n : nat) (d : string) : list string :=
  match n with
  | O => []
  | S n' => if String.eqb d "" then []
            else if String.eqb (dirname d) d then [d]
            else d :: ancestors n' (dirname d)
  end.

Definition add_dirs (d : fs) (l : list string) : fs :=
  {| dirs := list_to_set l ∪ dirs d; names := names d; inodes := inodes d |}.

(** An inode number that is not in use. *)
Definition fresh_inode (d : fs) : nat :=
  fresh (dom (inodes d) ∪ list_to_set (map snd (map_to_list (names d)))).

Definition create (d : fs) (p : string) : fs :=
  let i := fresh_inode d in
  {| dirs := dirs d; names := <[p := i]> (names d); inodes := <[i := Partial]> (inodes d) |}.

Definition store (d : fs) (i : nat) (c : content) : fs :=
  {| dirs := dirs d; names := names d; inodes := <[i := c]> (inodes d) |}.

(** [rename(2)]: in one step [dst] names the inode [src] named and
    [src] is gone. *)
Definition move (d : fs) (src dst : string) (i : nat) : fs :=
  {| dirs := dirs d; names := <[dst := i]> (delete src (names d)); inodes := inodes d |}.

End Fs.
Export Fs(fs, content, Text, Partial).

(** ** The world: disk, process and remote service *)

(** The system calls on which a failure can be injected. *)
Inductive syscall :=
| SysMakedirs | SysCreate | SysWrite | SysRename | SysClose | SysOpen.

(** One call of a history endpoint and its answer. *)
Record request := { channel : string; oldest : Z; count : Z }.
Module Response.
Record t := { messages : list pyval; has_more : bool }.
End Response.
Abbreviation response := Response.t.

(** [PS] is the state of the remote service.  [disk_history] lists the
    states the disk went through, most recent first; [buffers] holds, per
    open inode, the text written but not yet flushed; [calls] logs the
    requests made to the service, oldest first, with their answers.
    [fails] and [tmpname] are the environment: which system calls fail,
    and the name the next temporary file gets. *)
Record world (PS : Type) := {
  disk : fs;
  disk_history : list fs;
  buffers : gmap nat pyval;
  slack : PS;
  calls : list (request * outcome response);
  fails : syscall -> bool;
  tmpname : string;
}.
Arguments disk {PS} _.
Arguments disk_history {PS} _.
Arguments buffers {PS} _.
Arguments slack {PS} _.
Arguments calls {PS} _.
Arguments fails {PS} _.
Arguments tmpname {PS} _.

(** An object with a [history] method ([slack.channels], [slack.groups],
    [slack.im]): it answers a request and moves the service on. *)
Definition pageable (PS : Type) := PS -> request -> outcome response * PS.

Definition M (PS A : Type) := world PS -> outcome A * world PS.

Section Monad.
Context {PS : Type}.

Definition ret {A} (a : A) : M PS A := fun w => (Ok a, w).

Definition bind {A B} (c : M PS A) (k : A -> M PS B) : M PS B :=
  fun w => match c w with
           | (Ok a, w') => k a w'
           | (Raise e, w') => (Raise e, w')
           | (OutOfFuel, w') => (OutOfFuel, w')
           end.

Definition lift {A} (x : outcome A) : M PS A := fun w => (x, w).

(** The disk changes: the state it leaves joins the history. *)
Definition set_disk (d : fs) (w : world PS) : world PS :=
  {| disk := d; disk_history := disk w :: disk_history w;
     buffers := buffers w; slack := slack w; calls := calls w;
     fails := fails w; tmpname := tmpname w |}.

Definition set_buffers (b : gmap nat pyval) (w : world PS) : world PS :=
  {| disk := disk w; disk_history := disk_history w;
     buffers := b; slack := slack w; calls := calls w;
     fails := fails w; tmpname := tmpname w |}.

(** [c] runs, then [fin] runs whatever [c] did; an exception of [fin]
    replaces the result of [c]. *)
Definition finally {A} (c : M PS A) (fin : M PS unit) : M PS A :=
  fun w => let '(r, w1) := c w in
           match fin w1 with
           | (Ok _, w2) => (r, w2)
           | (Raise e, w2) => (Raise e, w2)
           | (OutOfFuel, w2) => (OutOfFuel, w2)
           end.
End Monad.

Notation "'let!' x ':=' c 'in' k" := (bind c (fun x => k))
  (at level 10, x name, c at level 100, k at level 200) : py_scope.
Notation "'do!' c 'in' k" := (bind c (fun _ => k))
  (at level 10, c at level 100, k at level 200) : py_scope.

(** ** System calls and the remote call *)

(** An open file: the name it was created under and its inode. *)
Record file := { name : string; ino : nat }.

Section Sys.
Context {PS : Type}.

Definition os_path_exists (p : string) : M PS bool :=
  fun w => (Ok (Fs.exists_ (disk w) p), w).

(** [os.makedirs(d)]; the empty path is [FileNotFoundError] and an
    existing one [FileExistsError]. *)
Definition os_makedirs (d : string) : M PS unit :=
  fun w =>
    if fails w SysMakedirs then (Raise OSError, w)
    else if String.eqb d "" then (Raise FileNotFoundError, w)
    else if Fs.exists_ (disk w) d then (Raise FileExistsError, w)
    else (Ok tt, set_disk (Fs.add_dirs (disk w) (Fs.ancestors (S (String.length d)) d)) w).

(** [NamedTemporaryFile(dir=dir, mode='w', delete=False)]: a new empty
    file under a name that is not taken (exclusive creation), with an
    empty buffer; nothing removes it when it is closed.  [tmpname] is
    the name the file ends up with: the library draws names until one is
    free, so a world whose [tmpname] is taken stands for no real run. *)
Definition NamedTemporaryFile (dir : string) : M PS file :=
  fun w =>
    let p := Fs.join dir (tmpname w) in
    let i := Fs.fresh_inode (disk w) in
    if fails w SysCreate then (Raise OSError, w)
    else if negb (bool_decide (dir ∈ Fs.dirs (disk w))) then (Raise OSError, w)
    else if Fs.exists_ (disk w) p then (Raise FileExistsError, w)
    else (Ok {| name := p; ino := i |},
          set_disk (Fs.create (disk w) p) (set_buffers (delete i (buffers w)) w)).

(** [json.dump(obj, f, indent=4, sort_keys=True)]: the text goes to the
    buffer of [f].  When the write fails the file holds at most a
    prefix of the document. *)
Definition json_dump (obj : pyval) (f : file) : M PS unit :=
  fun w =>
    if fails w SysWrite then (Raise OSError, w)
    else (Ok tt, set_buffers (<[ino f := obj]> (buffers w)) w).

Definition os_rename (src dst : string) : M PS unit :=
  fun w =>
    if fails w SysRename then (Raise OSError, w)
    else match Fs.names (disk w) !! src with
         | None => (Raise FileNotFoundError, w)
         | Some i =>
             if bool_decide (dst ∈ Fs.dirs (disk w)) then (Raise IsADirectoryError, w)
             else (Ok tt, set_disk (Fs.move (disk w) src dst i) w)
         end.

(** Closing flushes what is buffered to the inode, whatever its name is
    by now. *)
Definition close (f : file) : M PS unit :=
  fun w =>
    match buffers w !! ino f with
    | None => (Ok tt, w)
    | Some doc =>
        let w' := set_buffers (delete (ino f) (buffers w)) w in
        if fails w SysClose then (Raise OSError, w')
        else (Ok tt, set_disk (Fs.store (disk w) (ino f) (Text doc)) w')
    end.

(** [open(p)] for reading, giving the text of the file. *)
Definition open_read (p : string) : M PS content :=
  fun w =>
    if fails w SysOpen then (Raise OSError, w)
    else if bool_decide (p ∈ Fs.dirs (disk w)) then (Raise IsADirectoryError, w)
    else match Fs.read (disk w) p with
         | None => (Raise FileNotFoundError, w)
         | Some c => (Ok c, w)
         end.

(** [json.load]. *)
Definition json_load (c : content) : outcome pyval :=
  match c with
  | Text doc => Ok doc
  | Partial => Raise JSONDecodeError
  end.

(** The service has answered [r] with [a] and is now in state [s]. *)
Definition log_call (r : request) (a : outcome response) (s : PS) (w : world PS)
  : world PS :=
  {| disk := disk w; disk_history := disk_history w; buffers := buffers w;
     slack := s; calls := calls w ++ [(r, a)];
     fails := fails w; tmpname := tmpname w |}.

(** [pageable_object.history(channel=.., oldest=.., count=..).body] *)
Definition call_history (pageable_object : pageable PS) (r : request) : M PS response :=
  fun w =>
    let '(a, s) := pageable_object (slack w) r in
    (a, log_call r a s w).
End Sys.

(** ** The program *)

(** [SORT_MESSAGES_BY_TIMESTAMP = lambda message: float(message['ts'])] *)
Definition SORT_MESSAGES_BY_TIMESTAMP (message : pyval) : outcome float :=
  try! ts := py_getitem message "ts" in
  py_float ts.

(** [_get_max_timestamp]: the [try] covers the list comprehension and
    [max], and [except ValueError] turns any [ValueError] raised there
    into [0.]. *)
Definition _get_max_timestamp (messages : pyval) : outcome float :=
  match (try! l := py_iter messages in
         try! ts := omap SORT_MESSAGES_BY_TIMESTAMP l in
         py_max ts) with
  | Raise e => if is_ValueError e then Ok Float.zero else Raise e
  | r => r
  end.

Section Program.
Context {PS : Type}.

Definition _get_stored_messages (path : string) : M PS pyval :=
  let! present := os_path_exists path in
  if negb present then ret (PList [])
  else
    let! stored_file := open_read path in
    lift (try! doc := json_load stored_file in py_getitem doc "messages").

(** One turn of the [while True] loop of [get_history]: the request,
    the filter on the answer, and either the end of the loop ([None])
    or the next value of [start_at_timestamp]. *)
Definition get_history_page (pageable_object : pageable PS) (channel_id : string)
    (start_at_timestamp : float) (page_size : Z) (messages : list pyval)
  : M PS (list pyval * option float) :=
  let! oldest := lift (Float.trunc start_at_timestamp) in
  let! response := call_history pageable_object
                     {| channel := channel_id; oldest := oldest; count := page_size |} in
  let! kept := lift (ofilter
                       (fun message =>
                          try! ts := SORT_MESSAGES_BY_TIMESTAMP message in
                          Ok (Float.gt ts start_at_timestamp))
                       (Response.messages response)) in
  let messages := messages ++ kept in
  if negb (Response.has_more response) then ret (messages, None)
  else
    let! next := lift (_get_max_timestamp (PList (Response.messages response))) in
    ret (messages, Some next).

Fixpoint get_history_loop (fuel : nat) (pageable_object : pageable PS)
    (channel_id : string) (start_at_timestamp : float) (page_size : Z)
    (messages : list pyval) : M PS (list pyval) :=
  match fuel with
  | O => lift OutOfFuel
  | S fuel' =>
      let! turn := get_history_page pageable_object channel_id
                     start_at_timestamp page_size messages in
      match turn with
      | (messages, None) => ret messages
      | (messages, Some start_at_timestamp) =>
          get_history_loop fuel' pageable_object channel_id
            start_at_timestamp page_size messages
      end
  end.

(** [get_history]; [start_at_timestamp] is a float here, the default
    [0] of the source being the integer that [int] and [>] treat as
    [0.0].  [fuel] bounds the number of pages. *)
Definition get_history (fuel : nat) (pageable_object : pageable PS)
    (channel_id : string) (start_at_timestamp : float) (page_size : Z)
  : M PS (list pyval) :=
  let! messages := get_history_loop fuel pageable_object channel_id
                     start_at_timestamp page_size [] in
  lift (py_sort SORT_MESSAGES_BY_TIMESTAMP messages).

Definition _write_json (path : string) (info : pyval) : M PS unit :=
  let directory := Fs.dirname path in
  let! present := os_path_exists directory in
  do! (if negb present then os_makedirs directory else ret tt) in
  let! out_file := NamedTemporaryFile directory in
  finally
    (do! json_dump info out_file in
     os_rename (name out_file) path)
    (close out_file).

(** [messages += new_messages] followed by [messages.sort(key=...)]:
    only a list accepts either. *)
Definition extend_and_sort (messages : pyval) (new_messages : list pyval)
  : outcome (list pyval) :=
  match messages with
  | PList l => py_sort SORT_MESSAGES_BY_TIMESTAMP (l ++ new_messages)
  | _ => Raise TypeError
  end.

Definition _append_new_messages (fuel : nat) (slack_api_handle : pageable PS)
    (item_id : string) (output_path : string) (info : gmap string pyval)
  : M PS unit :=
  let! messages := _get_stored_messages output_path in
  let! since := lift (_get_max_timestamp messages) in
  let! new_messages := get_history fuel slack_api_handle item_id since 1000 in
  match new_messages with
  | [] => ret tt
  | _ =>
      let! messages := lift (extend_and_sort messages new_messages) in
      let info := <["messages" := PList messages]> info in
      _write_json output_path (PDict info)
  end.
End Program.


(** * Vocabulary of the properties *)

(** A triple of integers that orders the floats other than NaN as [<]
    does: sign class first, then exponent, then mantissa. *)
Definition order_key (f : float) : Z * Z * Z :=
  match f with
  | S754_zero _ | S754_nan => (0, 0, 0)
  | S754_infinity s => (if s then -2 else 2, 0, 0)
  | S754_finite s m e => if s then (-1, - e, Zneg m) else (1, e, Zpos m)
  end.

Definition order_lt (a b : Z * Z * Z) : Prop :=
  a.1.1 < b.1.1 \/
  (a.1.1 = b.1.1 /\ (a.1.2 < b.1.2 \/ (a.1.2 = b.1.2 /\ a.2 < b.2))).

(** The timestamp of a record, as the program reads it. *)
Abbreviation timestamp_of := SORT_MESSAGES_BY_TIMESTAMP.

(** [m] is the maximum of [ts]: one of them, and none is above it. *)
Definition is_maximum (m : float) (ts : list float) : Prop :=
  m ∈ ts /\ forall t, t ∈ ts -> Float.le t m = true.

Definition no_nan (ts : list float) : Prop :=
  Forall (fun t => Float.is_nan t = false) ts.

(** ** Pagination *)

(** The boundary filter of a page: the timestamp strictly exceeds
    [bound]. *)
Definition exceeds (bound : float) (message : pyval) : bool :=
  match timestamp_of message with
  | Ok t => Float.gt t bound
  | _ => false
  end.

(** The turns of a fetch that started at [c]: each entry is the cursor
    in force for a page and the page the provider returned.  The last
    page is the one without [has_more]; after any other page the cursor
    is [_get_max_timestamp] of that page. *)
Inductive turns : float -> list (float * response) -> Prop :=
| turns_last c p :
    Response.has_more p = false -> turns c [(c, p)]
| turns_more c p n tr :
    Response.has_more p = true ->
    _get_max_timestamp (PList (Response.messages p)) = Ok n ->
    turns n tr ->
    turns c ((c, p) :: tr).

(** The records a fetch accumulates when each page is filtered against
    the cursor in force for it. *)
Definition kept_by_cursor (tr : list (float * response)) : list pyval :=
  concat (map (fun cp => List.filter (exceeds cp.1) (Response.messages cp.2)) tr).

(** The records it would accumulate if every page were filtered against
    the original bound [since]. *)
Definition kept_by_since (since : float) (tr : list (float * response)) : list pyval :=
  concat (map (fun cp => List.filter (exceeds since) (Response.messages cp.2)) tr).

(** The call that a turn logs: the request carries the truncated cursor. *)
Definition logged (channel_id : string) (page_size : Z)
    (cp : float * response) (call : request * outcome response) : Prop :=
  exists z, Float.trunc cp.1 = Ok z /\
            call = ({| channel := channel_id; oldest := z; count := page_size |}, Ok cp.2).

(** Two worlds that differ at most in the service and the call log. *)
Definition same_machine {PS} (w w' : world PS) : Prop :=
  disk w' = disk w /\ disk_history w' = disk_history w /\
  buffers w' = buffers w /\ fails w' = fails w /\ tmpname w' = tmpname w.

(** Ascending by timestamp. *)
Definition sorted_by_timestamp (l : list pyval) : Prop :=
  exists ts, omap timestamp_of l = Ok ts /\
             StronglySorted (fun a b => Float.le a b = true) ts.

(** A page all of whose records are strictly newer than [c], with finite
    timestamps. *)
Definition page_newer_than (c : float) (p : response) : bool :=
  forallb (fun message =>
             match timestamp_of message with
             | Ok t => Float.gt t c && Float.finite t
             | _ => false
             end) (Response.messages p).

(** ** Persistence *)

(** Two disks with the same files (directories may differ). *)
Definition same_files (d d' : fs) : Prop :=
  Fs.names d' = Fs.names d /\ Fs.inodes d' = Fs.inodes d.

(** The temporary name [_write_json] uses for [path] in the world [w]. *)
Definition temporary_path {PS} (path : string) (w : world PS) : string :=
  Fs.join (Fs.dirname path) (tmpname w).

(** From [w] to [w'] the disk only went through states in which a
    reader finds at [path] what it found in [w]. *)
Definition target_untouched {PS} (path : string) (w w' : world PS) : Prop :=
  exists new,
    disk_history w' = new ++ disk_history w /\
    Forall (fun d => Fs.read d path = Fs.read (disk w) path) (disk w' :: new).

(** ** Sample data *)

(** A record with the timestamp text [ts], as the API delivers it. *)
Definition record (ts : string) : pyval := PDict {[ "ts" := PStr ts ]}.

Definition page (tss : list string) (more : bool) : response :=
  {| Response.messages := map record tss; Response.has_more := more |}.

(** A provider that answers with the pages of a script, in order,
    whatever the request; its state is the number of calls so far. *)
Definition scripted (pages : list response) : pageable nat :=
  fun n _ =>
    (match pages !! n with
     | Some p => Ok p
     | None => Raise ProviderError
     end, S n).

Definition sample_disk : fs :=
  {| Fs.dirs := {[ "."; "channels" ]}; Fs.names := ∅; Fs.inodes := ∅ |}.

(** A machine on which nothing fails, before any call. *)
Definition sample_world (d : fs) : world nat :=
  {| disk := d; disk_history := []; buffers := ∅; slack := 0%nat; calls := [];
     fails := fun _ => false; tmpname := "tmpk3x9wq_a" |}.

(** Two pages: the second is requested with [oldest = int(5.5) = 5] and
    holds again the records of the first, which are not older than 5. *)
Definition page_a : response := page ["5.25"; "5.5"] true.
Definition page_b : response := page ["5.25"; "5.5"; "6.0"] false.

(** Records with the timestamps [first + 1], ..., [first + n] (seconds,
    with a fixed fraction as Slack writes them). *)
Definition second (k : N) : string :=
  NilZero.string_of_uint (N.to_uint k) +:+ ".000100".

Definition seconds (first : N) (n : nat) : list string :=
  map (fun i => second (first + N.of_nat i)) (seq 1 n).

(** Three pages of new records, each page after the one before. *)
Definition fresh_pages : list response :=
  [ page (seconds 1503400000 1000) true;
    page (seconds 1503401000 1000) true;
    page (seconds 1503402000 400) false ].

(** Three pages of a provider that is asked for the records after
    [oldest], which is the cursor without its fraction: the second and
    the third page start with the record the page before ended with. *)
Definition overlapping_pages : list response :=
  [ page (seconds 1503400000 1000) true;
    page (seconds 1503400999 1000) true;
    page (seconds 1503401998 400) false ].

(** A channel file as a first run leaves it, and a machine on which the
    rename fails. *)
Definition stored_disk : fs :=
  {| Fs.dirs := {[ "."; "channels" ]};
     Fs.names := {[ "channels/general.json" := 0%nat ]};
     Fs.inodes := {[ 0%nat := Text (PDict {[ "messages" := PList [record "5.25"; record "5.5"] ]}) ]} |}.

Definition failing_rename (s : syscall) : bool :=
  match s with SysRename => true | _ => false end.

Definition rename_fails_world : world nat :=
  {| disk := stored_disk; disk_history := []; buffers := ∅; slack := 0%nat;
     calls := []; fails := failing_rename; tmpname := "tmpk3x9wq_a" |}.

(** A machine on which the flush at close fails (a full disk). *)
Definition failing_close (s : syscall) : bool :=
  match s with SysClose => true | _ => false end.

Definition close_fails_world : world nat :=
  {| disk := stored_disk; disk_history := []; buffers := ∅; slack := 0%nat;
     calls := []; fails := failing_close; tmpname := "tmpk3x9wq_a" |}.

Definition new_snapshot : gmap string pyval :=
  {[ "channel_info" := PDict {[ "name" := PStr "general" ]};
     "messages" := PList [record "5.25"; record "5.5"; record "6.0"] ]}.

(** * Properties *)

(** ** The order on floats

    Away from NaN the comparisons of [spec_float] are those of the
    lexicographic order on [order_key]. *)
Module FloatOrder.
Import Float.

Lemma lt_key a b :
  is_nan a = false -> is_nan b = false ->
  lt a b = true <-> order_lt (order_key a) (order_key b).
Proof.
  unfold lt, SFltb, order_lt.
  destruct a as [sa|sa| |sa ma ea], b as [sb|sb| |sb mb eb];
    simpl; try discriminate; intros _ _;
    try (destruct sa); try (destruct sb); simpl;
    try (change (Pos.compare_cont Eq ma mb) with (Pos.compare ma mb);
         destruct (Z.compare_spec ea eb); destruct (Pos.compare_spec ma mb));
    simpl; split; intros ?;
    try discriminate; try reflexivity; lia.
Qed.

Lemma le_key a b :
  is_nan a = false -> is_nan b = false ->
  le a b = true <-> ~ order_lt (order_key b) (order_key a).
Proof.
  unfold le, SFleb, order_lt.
  destruct a as [sa|sa| |sa ma ea], b as [sb|sb| |sb mb eb];
    simpl; try discriminate; intros _ _;
    try (destruct sa); try (destruct sb); simpl;
    try (change (Pos.compare_cont Eq ma mb) with (Pos.compare ma mb);
         destruct (Z.compare_spec ea eb); destruct (Pos.compare_spec ma mb));
    simpl; split; intros ?;
    try discriminate; try reflexivity; lia.
Qed.

(** A comparison that holds rules NaN out. *)
Lemma lt_not_nan a b : lt a b = true -> is_nan a = false /\ is_nan b = false.
Proof.
  unfold lt, SFltb. destruct a, b; simpl; try discriminate; auto.
Qed.

Lemma le_refl a : is_nan a = false -> le a a = true.
Proof. intros Ha. apply le_key; auto. unfold order_lt. lia. Qed.

Lemma le_trans a b c :
  is_nan a = false -> is_nan b = false -> is_nan c = false ->
  le a b = true -> le b c = true -> le a c = true.
Proof.
  intros Ha Hb Hc. rewrite !le_key by assumption. unfold order_lt. lia.
Qed.

Lemma lt_le a b : lt a b = true -> le a b = true.
Proof.
  intros H. destruct (lt_not_nan _ _ H) as [Ha Hb].
  apply lt_key in H; auto. apply le_key; auto. unfold order_lt in *. lia.
Qed.

Lemma not_lt_le a b :
  is_nan a = false -> is_nan b = false -> lt a b = false -> le b a = true.
Proof.
  intros Ha Hb H. apply le_key; auto. rewrite <- lt_key by assumption.
  rewrite H. discriminate.
Qed.

Lemma lt_le_trans a b c :
  is_nan c = false -> lt a b = true -> le b c = true -> lt a c = true.
Proof.
  intros Hc H1. destruct (lt_not_nan _ _ H1) as [Ha Hb].
  rewrite lt_key in H1 by assumption.
  rewrite le_key, lt_key by assumption. unfold order_lt in *. lia.
Qed.
End FloatOrder.

(** ** Timestamp utilities *)

Section MaxTimestamp.
Import Float FloatOrder.

Let step (m y : float) : float := if gt y m then y else m.

Lemma fold_max_spec (l : list float) (x : float) :
  is_nan x = false -> no_nan l ->
  let m := fold_left step l x in
  is_nan m = false /\ m ∈ x :: l /\ le x m = true /\
  forall t, t ∈ l -> le t m = true.
Proof.
  revert x. induction l as [|y l IH]; intros x Hx Hl; simpl.
  - repeat split; [assumption | left | by apply le_refl |].
    intros t Ht. inversion Ht.
  - inversion Hl as [|? ? Hy Hl']; subst.
    assert (Hs : is_nan (step x y) = false)
      by (unfold step; destruct (gt y x); assumption).
    destruct (IH (step x y) Hs Hl') as (Hm & Hin & Hle & Hall).
    assert (Hxs : le x (step x y) = true /\ le y (step x y) = true).
    { unfold step, gt. destruct (SFltb x y) eqn:E.
      - split; [by apply lt_le | by apply le_refl].
      - split; [by apply le_refl | by apply not_lt_le]. }
    destruct Hxs as [Hxs Hys].
    repeat split.
    + assumption.
    + apply elem_of_cons in Hin as [Hin | Hin].
      * rewrite Hin. unfold step. destruct (gt y x);
          [right; left | left].
      * right; right; assumption.
    + eapply le_trans; [| | | exact Hxs | exact Hle]; assumption.
    + intros t Ht. apply elem_of_cons in Ht as [-> | Ht].
      * eapply le_trans; [| | | exact Hys | exact Hle]; assumption.
      * by apply Hall.
Qed.

Lemma py_max_spec (ts : list float) :
  ts <> [] -> no_nan ts -> exists m, py_max ts = Ok m /\ is_maximum m ts.
Proof.
  destruct ts as [|x l]; [congruence | intros _ Hnan].
  inversion Hnan as [|? ? Hx Hl]; subst.
  destruct (fold_max_spec l x Hx Hl) as (_ & Hin & Hle & Hall).
  eexists; split; [reflexivity |]. split; [exact Hin |].
  intros t Ht. apply elem_of_cons in Ht as [-> | Ht]; auto.
Qed.

(** When every timestamp of the page parses, [_get_max_timestamp] is
    [max] of the timestamps, or the floor for the empty page. *)
Lemma get_max_timestamp_parsed (S : list pyval) (ts : list float) :
  omap timestamp_of S = Ok ts ->
  _get_max_timestamp (PList S) =
    match ts with [] => Ok zero | _ => py_max ts end.
Proof.
  intros H. unfold _get_max_timestamp. simpl. rewrite H. simpl.
  destruct ts; reflexivity.
Qed.

(** A [ValueError] from a timestamp is caught with the one of [max]. *)
Lemma get_max_timestamp_value_error (S : list pyval) :
  omap timestamp_of S = Raise ValueError ->
  _get_max_timestamp (PList S) = Ok zero.
Proof.
  intros H. unfold _get_max_timestamp. simpl. rewrite H. reflexivity.
Qed.

Lemma omap_length {A B} (f : A -> outcome B) (l : list A) (r : list B) :
  omap f l = Ok r -> length r = length l.
Proof.
  revert r. induction l as [|x l IH]; simpl; intros r H.
  - by inversion H.
  - destruct (f x); simpl in H; try discriminate.
    destruct (omap f l); simpl in H; try discriminate.
    inversion H; subst. simpl. f_equal. by apply IH.
Qed.
End MaxTimestamp.

Lemma get_max_timestamp_nonempty (S : list pyval) (ts : list float) :
  omap timestamp_of S = Ok ts -> no_nan ts -> S <> [] ->
  exists m, _get_max_timestamp (PList S) = Ok m /\ is_maximum m ts.
Proof.
  intros Hts Hnan HS. rewrite (get_max_timestamp_parsed S ts Hts).
  assert (Hne : ts <> []).
  { intros ->. apply omap_length in Hts. destruct S; [congruence | discriminate]. }
  destruct (py_max_spec ts Hne Hnan) as (m & Hm & Hmax).
  exists m. split; [| exact Hmax].
  destruct ts; [congruence | exact Hm].
Qed.

(** C7.  For a non-empty sequence of records whose timestamps parse (to
    numbers, not NaN), [_get_max_timestamp] returns the maximum of their
    timestamps; for the empty sequence it returns the floor [0.0]. *)
Theorem max_timestamp_is_maximum (S : list pyval) (ts : list float) :
  omap timestamp_of S = Ok ts ->
  no_nan ts ->
  _get_max_timestamp (PList []) = Ok Float.zero /\
  (S <> [] ->
   exists m, _get_max_timestamp (PList S) = Ok m /\ is_maximum m ts).
Proof.
  intros Hts Hnan. split; [reflexivity |].
  by apply get_max_timestamp_nonempty.
Qed.

Lemma max_timestamp_is_maximum_witness :
  let S := [record "1503435956.000247"; record "1503435971.000100";
            record "1503435960.5"] in
  let ts := [Float.of_decimal false 1503435956000247 (-6);
             Float.of_decimal false 1503435971000100 (-6);
             Float.of_decimal false 15034359605 (-1)] in
  omap timestamp_of S = Ok ts /\
  no_nan ts /\
  _get_max_timestamp (PList []) = Ok Float.zero /\
  (S <> [] ->
   exists m, _get_max_timestamp (PList S) = Ok m /\ is_maximum m ts).
Proof.
  intros S ts.
  assert (H1 : omap timestamp_of S = Ok ts) by (vm_compute; reflexivity).
  assert (H2 : no_nan ts) by (repeat constructor).
  repeat (split; [assumption |]).
  exact (max_timestamp_is_maximum S ts H1 H2).
Defined.

(** ** The fetch loop *)

Section Fetch.
Context {PS : Type}.
Implicit Types (w : world PS) (pageable_object : pageable PS).

(** The filter of [get_history], when it does not raise, is [filter]
    with [exceeds], and every timestamp of the page has parsed. *)
Lemma ofilter_exceeds (c : float) (l k : list pyval) :
  ofilter (fun message =>
             try! ts := SORT_MESSAGES_BY_TIMESTAMP message in
             Ok (Float.gt ts c)) l = Ok k ->
  k = List.filter (exceeds c) l /\ exists ts, omap timestamp_of l = Ok ts.
Proof.
  revert k. induction l as [|x l IH]; simpl; intros k H.
  - inversion H. split; [reflexivity | by exists []].
  - unfold exceeds. destruct (SORT_MESSAGES_BY_TIMESTAMP x) as [t| |] eqn:Ex;
      simpl in H; try discriminate.
    destruct (ofilter _ l) as [k'| |] eqn:El; simpl in H; try discriminate.
    destruct (IH k' eq_refl) as [-> [ts Hts]].
    inversion H; subst. split.
    + reflexivity.
    + exists (t :: ts). by rewrite Hts.
Qed.

Lemma ofilter_parsed (c : float) (l : list pyval) (ts : list float) :
  omap timestamp_of l = Ok ts ->
  ofilter (fun message =>
             try! ts := SORT_MESSAGES_BY_TIMESTAMP message in
             Ok (Float.gt ts c)) l = Ok (List.filter (exceeds c) l).
Proof.
  revert ts. induction l as [|x l IH]; simpl; intros ts H; [reflexivity |].
  unfold exceeds at 1.
  destruct (SORT_MESSAGES_BY_TIMESTAMP x) as [t| |]; simpl in *; try discriminate.
  destruct (omap _ l) as [ts'| |]; simpl in H; try discriminate.
  by rewrite (IH ts' eq_refl).
Qed.

(** One turn, from what the provider answers. *)
Lemma get_history_page_run pageable_object channel_id c page_size acc w z p s ts :
  Float.trunc c = Ok z ->
  pageable_object (slack w)
    {| channel := channel_id; oldest := z; count := page_size |} = (Ok p, s) ->
  omap timestamp_of (Response.messages p) = Ok ts ->
  exists n,
    _get_max_timestamp (PList (Response.messages p)) = Ok n /\
    get_history_page pageable_object channel_id c page_size acc w =
      (Ok (acc ++ List.filter (exceeds c) (Response.messages p),
           if Response.has_more p then Some n else None),
       log_call {| channel := channel_id; oldest := z; count := page_size |}
         (Ok p) s w).
Proof.
  intros Hz Hp Hts.
  assert (Hn : exists n, _get_max_timestamp (PList (Response.messages p)) = Ok n).
  { rewrite (get_max_timestamp_parsed _ _ Hts).
    destruct ts; [by eexists | by eexists]. }
  destruct Hn as [n Hn]. exists n. split; [exact Hn |].
  unfold get_history_page, bind, lift, call_history. rewrite Hz, Hp.
  rewrite (ofilter_parsed c _ ts Hts).
  destruct (Response.has_more p); simpl; [| reflexivity].
  by rewrite Hn.
Qed.

(** One turn, from its result. *)
Lemma get_history_page_inv pageable_object channel_id c page_size acc w acc' next w' :
  get_history_page pageable_object channel_id c page_size acc w
    = (Ok (acc', next), w') ->
  exists z p,
    Float.trunc c = Ok z /\
    w' = log_call {| channel := channel_id; oldest := z; count := page_size |}
           (Ok p) (slack w') w /\
    acc' = acc ++ List.filter (exceeds c) (Response.messages p) /\
    (exists ts, omap timestamp_of (Response.messages p) = Ok ts) /\
    match next with
    | None => Response.has_more p = false
    | Some n => Response.has_more p = true /\
                _get_max_timestamp (PList (Response.messages p)) = Ok n
    end.
Proof.
  unfold get_history_page, bind, lift, call_history.
  destruct (Float.trunc c) as [z| |]; try discriminate.
  destruct (pageable_object (slack w) _) as [[p| |] s] eqn:Hp; try discriminate.
  destruct (ofilter _ _) as [k| |] eqn:Hk; try discriminate.
  apply ofilter_exceeds in Hk as [-> Hts].
  destruct (Response.has_more p) eqn:Hm; simpl.
  - destruct (_get_max_timestamp _) as [n| |] eqn:Hn; try discriminate.
    unfold ret. intros H; inversion H; subst.
    exists z, p. repeat split; auto.
  - unfold ret. intros H; inversion H; subst.
    exists z, p. repeat split; auto.
Qed.

Lemma log_call_same_machine r a s w : same_machine w (log_call r a s w).
Proof. by repeat split. Qed.

Lemma same_machine_trans w1 w2 w3 :
  same_machine w1 w2 -> same_machine w2 w3 -> same_machine w1 w3.
Proof.
  unfold same_machine. intros (?&?&?&?&?) (?&?&?&?&?).
  repeat split; congruence.
Qed.

(** The whole loop, from its result: the turns it took, the calls it
    logged and the records it accumulated. *)
Lemma get_history_loop_inv fuel pageable_object channel_id page_size :
  forall c acc w res w',
    get_history_loop fuel pageable_object channel_id c page_size acc w
      = (Ok res, w') ->
    exists tr new,
      turns c tr /\
      calls w' = calls w ++ new /\
      Forall2 (logged channel_id page_size) tr new /\
      res = acc ++ kept_by_cursor tr /\
      same_machine w w'.
Proof.
  induction fuel as [|fuel IH]; intros c acc w res w'; simpl.
  - discriminate.
  - unfold bind at 1.
    destruct (get_history_page _ _ _ _ _ _) as [[[acc1 next]| |] w1] eqn:Hpage;
      try discriminate.
    apply get_history_page_inv in Hpage
      as (z & p & Hz & Hw1 & Hacc & _ & Hnext).
    assert (Hcall : logged channel_id page_size (c, p)
              ({| channel := channel_id; oldest := z; count := page_size |}, Ok p))
      by (exists z; by split).
    destruct next as [n|].
    + destruct Hnext as [Hm Hn]. intros Hrest.
      apply IH in Hrest as (tr & new & Htr & Hcalls & Hlog & Hres & Hsame).
      exists ((c, p) :: tr), (({| channel := channel_id; oldest := z; count := page_size |}, Ok p) :: new).
      split; [by eapply turns_more |].
      split; [rewrite Hcalls, Hw1; simpl; by rewrite <- app_assoc |].
      split; [by constructor |].
      split.
      * rewrite Hres, Hacc. unfold kept_by_cursor. simpl. by rewrite <- app_assoc.
      * eapply same_machine_trans; [| exact Hsame].
        rewrite Hw1. apply log_call_same_machine.
    + unfold ret. intros H; inversion H; subst res w'.
      exists [(c, p)], [({| channel := channel_id; oldest := z; count := page_size |}, Ok p)].
      split; [by apply turns_last |].
      split; [by rewrite Hw1 |].
      split; [by repeat constructor |].
      split.
      * rewrite Hacc. unfold kept_by_cursor. simpl. by rewrite app_nil_r.
      * rewrite Hw1. apply log_call_same_machine.
Qed.
End Fetch.

(** ** Sorting by timestamp *)

Section SortLemmas.
Import Float FloatOrder.
Context {A : Type}.
Implicit Types (l : list (float * A)) (x : float * A).

Let le_fst (a b : float * A) : Prop := le a.1 b.1 = true.

Lemma insert_by_key_perm x l : Permutation (insert_by_key x l) (x :: l).
Proof.
  induction l as [|y l IH]; simpl; [reflexivity |].
  destruct (lt y.1 x.1); [| reflexivity].
  rewrite IH. apply perm_swap.
Qed.

Lemma sort_keyed_perm l : Permutation (sort_keyed l) l.
Proof.
  induction l as [|x l IH]; simpl; [reflexivity |].
  rewrite insert_by_key_perm. by constructor.
Qed.

Lemma insert_by_key_sorted x l :
  is_nan x.1 = false -> no_nan (map fst l) ->
  StronglySorted le_fst l -> StronglySorted le_fst (insert_by_key x l).
Proof.
  intros Hx. induction l as [|y l IH]; simpl; intros Hnan Hs.
  - repeat constructor.
  - inversion Hnan as [|? ? Hy Hnan']; subst.
    inversion Hs as [|? ? Hs' Hall]; subst.
    destruct (lt y.1 x.1) eqn:E.
    + constructor; [by apply IH |].
      rewrite (insert_by_key_perm x l). constructor; [| exact Hall].
      by apply lt_le.
    + assert (Hxy : le x.1 y.1 = true) by (by apply not_lt_le).
      constructor; [by constructor |].
      constructor; [exact Hxy |].
      rewrite Forall_forall in Hall. apply Forall_forall. intros z Hz.
      assert (Hzn : is_nan z.1 = false).
      { unfold no_nan in Hnan'. rewrite Forall_forall in Hnan'.
        apply Hnan'. by apply list_elem_of_fmap_2. }
      unfold le_fst. eapply le_trans; [| | | exact Hxy | by apply Hall]; assumption.
Qed.

Lemma sort_keyed_sorted l :
  no_nan (map fst l) -> StronglySorted le_fst (sort_keyed l).
Proof.
  induction l as [|x l IH]; simpl; intros Hnan; [constructor |].
  inversion Hnan as [|? ? Hx Hnan']; subst.
  apply insert_by_key_sorted; [assumption | | by apply IH].
  unfold no_nan. rewrite (sort_keyed_perm l). exact Hnan'.
Qed.

Lemma omap_app {B C} (f : B -> outcome C) (l1 l2 : list B) r1 r2 :
  omap f l1 = Ok r1 -> omap f l2 = Ok r2 -> omap f (l1 ++ l2) = Ok (r1 ++ r2).
Proof.
  revert r1. induction l1 as [|x l1 IH]; simpl; intros r1 H1 H2.
  - by inversion H1.
  - destruct (f x); simpl in *; try discriminate.
    destruct (omap f l1) eqn:E; simpl in *; try discriminate.
    inversion H1; subst. by rewrite (IH _ eq_refl H2).
Qed.

Lemma omap_zip (key : A -> outcome float) (xs : list A) (ks : list float) :
  omap key xs = Ok ks ->
  Forall (fun kx => key kx.2 = Ok kx.1) (zip ks xs) /\
  map snd (zip ks xs) = xs /\ map fst (zip ks xs) = ks.
Proof.
  revert ks. induction xs as [|x xs IH]; simpl; intros ks H.
  - inversion H. by repeat split.
  - destruct (key x) as [k| |] eqn:Ek; simpl in H; try discriminate.
    destruct (omap key xs) as [ks'| |]; simpl in H; try discriminate.
    inversion H; subst. destruct (IH ks' eq_refl) as (Hall & Hsnd & Hfst).
    simpl. repeat split; [by constructor | by f_equal | by f_equal].
Qed.

Lemma omap_keyed (key : A -> outcome float) l :
  Forall (fun kx => key kx.2 = Ok kx.1) l ->
  omap key (map snd l) = Ok (map fst l).
Proof.
  induction 1 as [|x l Hx _ IH]; simpl; [reflexivity |].
  by rewrite Hx, IH.
Qed.

Lemma sorted_map_fst l :
  StronglySorted le_fst l ->
  StronglySorted (fun a b => le a b = true) (map fst l).
Proof.
  induction 1 as [|x l _ IH Hall]; simpl; constructor; [exact IH |].
  apply Forall_forall. intros k Hk.
  apply list_elem_of_fmap in Hk as (y & -> & Hy).
  rewrite Forall_forall in Hall. by apply Hall.
Qed.

(** [py_sort] returns a permutation of the list, with the keys
    ascending when none of them is a NaN. *)
Lemma py_sort_spec (key : A -> outcome float) (xs : list A) (ks : list float) :
  omap key xs = Ok ks ->
  exists r, py_sort key xs = Ok r /\ Permutation r xs /\
            (no_nan ks ->
             exists ks', omap key r = Ok ks' /\
                         StronglySorted (fun a b => le a b = true) ks').
Proof.
  intros Hks. unfold py_sort. rewrite Hks. simpl.
  destruct (omap_zip key xs ks Hks) as (Hall & Hsnd & Hfst).
  eexists; split; [reflexivity |]. split.
  - rewrite (sort_keyed_perm (zip ks xs)). by rewrite Hsnd.
  - intros Hnan. exists (map fst (sort_keyed (zip ks xs))). split.
    + apply omap_keyed. by rewrite (sort_keyed_perm (zip ks xs)).
    + apply sorted_map_fst, sort_keyed_sorted. by rewrite Hfst.
Qed.

Lemma py_sort_perm (key : A -> outcome float) (xs r : list A) :
  py_sort key xs = Ok r -> Permutation r xs.
Proof.
  unfold py_sort. destruct (omap key xs) as [ks| |] eqn:Hks; try discriminate.
  simpl. intros H; inversion H; subst.
  destruct (omap_zip key xs ks Hks) as (_ & Hsnd & _).
  rewrite (sort_keyed_perm (zip ks xs)). by rewrite Hsnd.
Qed.
End SortLemmas.

(** ** What the fetch keeps *)

(** C1, as amended.  Whenever [get_history] returns, the pages it was
    given form a chain of turns (the cursor of the first is [since], the
    cursor of each later one is the maximum timestamp of the page before
    it), every logged request carries the truncated cursor of its turn,
    and the result is the sort of the records that strictly exceed the
    cursor in force for their page. *)
Theorem fetch_keeps_records_newer_than_cursor {PS} (fuel : nat)
    (pageable_object : pageable PS) (channel_id : string) (since : float)
    (page_size : Z) (w : world PS) (res : list pyval) (w' : world PS) :
  get_history fuel pageable_object channel_id since page_size w = (Ok res, w') ->
  exists tr new,
    turns since tr /\
    calls w' = calls w ++ new /\
    Forall2 (logged channel_id page_size) tr new /\
    py_sort timestamp_of (kept_by_cursor tr) = Ok res /\
    Permutation res (kept_by_cursor tr).
Proof.
  unfold get_history, bind, lift.
  destruct (get_history_loop _ _ _ _ _ _ _) as [[acc| |] w1] eqn:Hloop;
    try discriminate.
  intros H. inversion H as [[Hsort Hw]]. subst w1.
  apply get_history_loop_inv in Hloop
    as (tr & new & Htr & Hcalls & Hlog & Hacc & _).
  simpl in Hacc. subst acc.
  exists tr, new. repeat split; try assumption.
  by eapply py_sort_perm.
Qed.

Lemma fetch_keeps_records_newer_than_cursor_witness :
  let run := get_history 2 (scripted [page_a; page_b]) "C024BE91L" Float.zero 1000
               (sample_world sample_disk) in
  run = (Ok (map record ["5.25"; "5.5"; "6.0"]), run.2) /\
  exists tr new,
    turns Float.zero tr /\
    calls run.2 = [] ++ new /\
    Forall2 (logged "C024BE91L" 1000) tr new /\
    py_sort timestamp_of (kept_by_cursor tr)
      = Ok (map record ["5.25"; "5.5"; "6.0"]) /\
    Permutation (map record ["5.25"; "5.5"; "6.0"]) (kept_by_cursor tr).
Proof.
  intros run.
  assert (Hrun : run = (Ok (map record ["5.25"; "5.5"; "6.0"]), run.2))
    by (vm_compute; reflexivity).
  split; [exact Hrun |].
  exact (fetch_keeps_records_newer_than_cursor 2 (scripted [page_a; page_b])
           "C024BE91L" Float.zero 1000 (sample_world sample_disk) _ _ Hrun).
Defined.

(** C1, as stated, fails: on the second page the record at [5.25] and
    the one at [5.5] exceed [since = 0] and are not kept, so the result
    is not the records filtered against [since]. *)
Lemma fetch_does_not_filter_against_since :
  exists res w' c,
    get_history 2 (scripted [page_a; page_b]) "C024BE91L" Float.zero 1000
      (sample_world sample_disk) = (Ok res, w') /\
    map snd (calls w') = [Ok page_a; Ok page_b] /\
    turns Float.zero [(Float.zero, page_a); (c, page_b)] /\
    length res = 3%nat /\
    ~ Permutation res
        (kept_by_since Float.zero [(Float.zero, page_a); (c, page_b)]).
Proof.
  eexists _, _, _. split; [vm_compute; reflexivity |].
  split; [vm_compute; reflexivity |].
  split.
  { eapply turns_more; [reflexivity | vm_compute; reflexivity |].
    by apply turns_last. }
  split; [reflexivity |].
  intros H. apply Permutation_length in H. vm_compute in H. discriminate.
Qed.

(** ** The watermark of a malformed record *)

(** C2.  A record without the timestamp key makes [_get_max_timestamp]
    raise, but a record whose timestamp is not the text of a number does
    not: the [ValueError] of [float] is caught by the handler meant for
    [max] of an empty list, and the result is the floor [0.0], even next
    to a record with a proper timestamp. *)
Theorem max_timestamp_unparseable_gives_floor :
  _get_max_timestamp (PList [PDict ∅]) = Raise KeyError /\
  timestamp_of (record "not-a-number") = Raise ValueError /\
  _get_max_timestamp (PList [record "not-a-number"]) = Ok Float.zero /\
  _get_max_timestamp
    (PList [record "1503435956.000247"; record "not-a-number"]) = Ok Float.zero.
Proof. repeat split; vm_compute; reflexivity. Qed.

(** ** The request of a turn *)

Lemma trunc_below_positive_fractional (c : float) (z : Z) :
  Float.trunc c = Ok z ->
  Float.is_positive c = true -> Float.fractional c = true ->
  Float.Z_lt z c = true.
Proof.
  destruct c as [s|s| |s m e]; simpl; try discriminate.
  destruct s; [discriminate | intros Hz _].
  destruct (0 <=? e) eqn:He; [discriminate |].
  apply Z.leb_gt in He. inversion Hz; subst z. clear Hz.
  rewrite negb_true_iff, Z.eqb_neq. intros Hmod.
  apply Z.ltb_lt. rewrite Z.shiftr_div_pow2 by lia.
  assert (Hpow : 0 < 2 ^ (- e)) by (apply Z.pow_pos_nonneg; lia).
  pose proof (Z.div_mod (Z.pos m) (2 ^ (- e)) ltac:(lia)) as Hdm.
  pose proof (Z.mod_pos_bound (Z.pos m) (2 ^ (- e)) Hpow) as Hb.
  lia.
Qed.

(** C10, as amended.  The request of a turn carries [int] of the cursor
    as [oldest]; when the cursor is positive with a fractional part that
    bound lies strictly below the cursor. *)
Theorem request_carries_truncated_cursor {PS} (pageable_object : pageable PS)
    (channel_id : string) (c : float) (page_size : Z) (acc : list pyval)
    (w : world PS) (z : Z) :
  Float.trunc c = Ok z ->
  let request := {| channel := channel_id; oldest := z; count := page_size |} in
  let answer := pageable_object (slack w) request in
  (get_history_page pageable_object channel_id c page_size acc w).2
    = log_call request answer.1 answer.2 w /\
  (Float.is_positive c = true -> Float.fractional c = true -> Float.Z_lt z c = true).
Proof.
  intros Hz request answer. split.
  - unfold get_history_page, bind, lift, call_history. rewrite Hz.
    subst answer request.
    destruct (pageable_object (slack w) _) as [[p| |] s]; try reflexivity.
    simpl. destruct (ofilter _ _); try reflexivity.
    destruct (Response.has_more p); simpl; try reflexivity.
    destruct (_get_max_timestamp _); reflexivity.
  - by apply trunc_below_positive_fractional.
Qed.

Lemma request_carries_truncated_cursor_witness :
  let c := Float.of_decimal false 55 (-1) in
  Float.trunc c = Ok 5 /\
  (get_history_page (scripted [page_b]) "C024BE91L" c 1000 []
     (sample_world sample_disk)).2
    = log_call {| channel := "C024BE91L"; oldest := 5; count := 1000 |}
        (Ok page_b) 1%nat (sample_world sample_disk) /\
  Float.Z_lt 5 c = true.
Proof.
  intros c.
  assert (Hz : Float.trunc c = Ok 5) by reflexivity.
  destruct (request_carries_truncated_cursor (scripted [page_b]) "C024BE91L"
              c 1000 [] (sample_world sample_disk) 5 Hz) as [Hlog Hlt].
  split; [exact Hz |]. split; [exact Hlog |].
  apply Hlt; reflexivity.
Defined.

(** C10, as stated, fails for a negative cursor: a stored record at
    [-1.5] gives the watermark [-1.5], the request carries
    [int(-1.5) = -1], and that bound is above the cursor, not below. *)
Lemma truncation_of_negative_cursor_is_above :
  exists c,
    _get_max_timestamp (PList [record "-1.5"]) = Ok c /\
    Float.fractional c = true /\
    map fst (calls (get_history_page (scripted [page_b]) "C024BE91L" c 1000 []
                      (sample_world sample_disk)).2)
      = [{| channel := "C024BE91L"; oldest := -1; count := 1000 |}] /\
    Float.Z_lt (-1) c = false /\
    Float.lt_Z c (-1) = true.
Proof.
  eexists. split; [vm_compute; reflexivity |].
  repeat split; vm_compute; reflexivity.
Qed.

(** ** The cursor of the next turn *)

(** C8.  When the page has [has_more], the turn hands on the maximum
    timestamp of the whole page as the next cursor -- the maximum over
    the timestamps [ts] of all its records, kept or not -- and the loop
    goes on from there. *)
Theorem cursor_advances_to_page_maximum {PS} (pageable_object : pageable PS)
    (channel_id : string) (c : float) (page_size : Z) (acc : list pyval)
    (w : world PS) (z : Z) (p : response) (s : PS) (ts : list float) (fuel : nat) :
  Float.trunc c = Ok z ->
  pageable_object (slack w)
    {| channel := channel_id; oldest := z; count := page_size |} = (Ok p, s) ->
  omap timestamp_of (Response.messages p) = Ok ts ->
  Response.has_more p = true ->
  exists n w',
    get_history_page pageable_object channel_id c page_size acc w
      = (Ok (acc ++ List.filter (exceeds c) (Response.messages p), Some n), w') /\
    _get_max_timestamp (PList (Response.messages p)) = Ok n /\
    (ts <> [] -> no_nan ts -> is_maximum n ts) /\
    get_history_loop (S fuel) pageable_object channel_id c page_size acc w
      = get_history_loop fuel pageable_object channel_id n page_size
          (acc ++ List.filter (exceeds c) (Response.messages p)) w'.
Proof.
  intros Hz Hp Hts Hmore.
  destruct (get_history_page_run pageable_object channel_id c page_size acc
              w z p s ts Hz Hp Hts) as (n & Hn & Hrun).
  rewrite Hmore in Hrun.
  exists n, (log_call {| channel := channel_id; oldest := z; count := page_size |}
               (Ok p) s w).
  split; [exact Hrun |]. split; [exact Hn |]. split.
  - intros Hne Hnan. rewrite (get_max_timestamp_parsed _ _ Hts) in Hn.
    destruct (py_max_spec ts Hne Hnan) as (m & Hm & Hmax).
    destruct ts; [congruence |]. rewrite Hm in Hn. by inversion Hn; subst.
  - simpl. unfold bind at 1. by rewrite Hrun.
Qed.

(** At cursor [5.5] the page [5.25, 5.5] keeps no record (the maximum of
    the kept subset would be the floor) and the next cursor is [5.5]. *)
Lemma cursor_advances_to_page_maximum_witness :
  let c := Float.of_decimal false 55 (-1) in
  let w := sample_world sample_disk in
  Float.trunc c = Ok 5 /\
  scripted [page_a] (slack w)
    {| channel := "C024BE91L"; oldest := 5; count := 1000 |} = (Ok page_a, 1%nat) /\
  omap timestamp_of (Response.messages page_a)
    = Ok [Float.of_decimal false 525 (-2); c] /\
  Response.has_more page_a = true /\
  exists n w',
    get_history_page (scripted [page_a]) "C024BE91L" c 1000 [] w
      = (Ok ([] ++ List.filter (exceeds c) (Response.messages page_a), Some n), w') /\
    _get_max_timestamp (PList (Response.messages page_a)) = Ok n /\
    ([Float.of_decimal false 525 (-2); c] <> [] ->
     no_nan [Float.of_decimal false 525 (-2); c] ->
     is_maximum n [Float.of_decimal false 525 (-2); c]) /\
    get_history_loop 1 (scripted [page_a]) "C024BE91L" c 1000 [] w
      = get_history_loop 0 (scripted [page_a]) "C024BE91L" n 1000
          ([] ++ List.filter (exceeds c) (Response.messages page_a)) w'.
Proof.
  intros c w.
  assert (H1 : Float.trunc c = Ok 5) by reflexivity.
  assert (H2 : scripted [page_a] (slack w)
                 {| channel := "C024BE91L"; oldest := 5; count := 1000 |}
               = (Ok page_a, 1%nat)) by reflexivity.
  assert (H3 : omap timestamp_of (Response.messages page_a)
               = Ok [Float.of_decimal false 525 (-2); c])
    by (vm_compute; reflexivity).
  assert (H4 : Response.has_more page_a = true) by reflexivity.
  repeat (split; [assumption |]).
  exact (cursor_advances_to_page_maximum (scripted [page_a]) "C024BE91L" c 1000
           [] w 5 page_a 1%nat _ 0%nat H1 H2 H3 H4).
Defined.

(** ** Three pages *)

Section ThreePages.
Import Float FloatOrder.
Context {PS : Type}.
Implicit Types (w : world PS) (pageable_object : pageable PS).

Lemma page_newer_than_spec (c : float) (p : response) :
  page_newer_than c p = true ->
  exists ts,
    omap timestamp_of (Response.messages p) = Ok ts /\
    List.filter (exceeds c) (Response.messages p) = Response.messages p /\
    Forall (fun t => finite t = true) ts.
Proof.
  unfold page_newer_than. induction (Response.messages p) as [|x l IH]; simpl.
  - intros _. by exists [].
  - unfold exceeds at 1.
    destruct (SORT_MESSAGES_BY_TIMESTAMP x) as [t| |] eqn:Ex; try discriminate.
    rewrite !andb_true_iff. intros [[Hgt Hfin] Hl].
    destruct (IH Hl) as (ts & Hts & Hkeep & Hall).
    exists (t :: ts). rewrite Hts, Hgt, Hkeep. simpl.
    repeat split. by constructor.
Qed.

Lemma finite_no_nan (ts : list float) :
  Forall (fun t => finite t = true) ts -> no_nan ts.
Proof.
  intros H. eapply Forall_impl; [exact H |]. intros t. by destruct t.
Qed.

Lemma finite_trunc (c : float) : finite c = true -> exists z, trunc c = Ok z.
Proof. destruct c; simpl; try discriminate; eauto. Qed.

(** The maximum of a non-empty page of finite timestamps is finite. *)
Lemma page_maximum_finite (l : list pyval) (ts : list float) (n : float) :
  omap timestamp_of l = Ok ts -> l <> [] ->
  Forall (fun t => finite t = true) ts ->
  _get_max_timestamp (PList l) = Ok n -> finite n = true.
Proof.
  intros Hts Hl Hfin Hn.
  destruct (get_max_timestamp_nonempty l ts Hts (finite_no_nan _ Hfin) Hl)
    as (m & Hm & Hin & _).
  rewrite Hm in Hn. inversion Hn; subst.
  rewrite Forall_forall in Hfin. by apply Hfin.
Qed.

Lemma get_history_loop_more fuel pageable_object channel_id c page_size acc w acc' n w' :
  get_history_page pageable_object channel_id c page_size acc w
    = (Ok (acc', Some n), w') ->
  get_history_loop (S fuel) pageable_object channel_id c page_size acc w
    = get_history_loop fuel pageable_object channel_id n page_size acc' w'.
Proof. intros H. simpl. unfold bind at 1. by rewrite H. Qed.

Lemma get_history_loop_last fuel pageable_object channel_id c page_size acc w acc' w' :
  get_history_page pageable_object channel_id c page_size acc w
    = (Ok (acc', None), w') ->
  get_history_loop (S fuel) pageable_object channel_id c page_size acc w
    = (Ok acc', w').
Proof. intros H. simpl. unfold bind at 1. by rewrite H. Qed.
End ThreePages.

(** C9, as amended.  A provider answers three calls with pages of 1000,
    1000 and 400 records and the flags true, true, false; every record
    of a page is strictly newer than the cursor in force for that page
    ([0.0], then the maximum of the page before) and has a finite
    timestamp.  Then [get_history] from [0.0] returns, with three pages
    of fuel or more, after exactly three calls, and its result holds the
    2400 records, ascending by timestamp. *)
Theorem three_pages_give_2400_sorted {PS} (pageable_object : pageable PS)
    (channel_id : string) (page_size : Z) (w : world PS)
    (p1 p2 p3 : response) (s1 s2 s3 : PS) (c1 c2 : float) (fuel : nat) :
  (forall r, pageable_object (slack w) r = (Ok p1, s1)) ->
  (forall r, pageable_object s1 r = (Ok p2, s2)) ->
  (forall r, pageable_object s2 r = (Ok p3, s3)) ->
  length (Response.messages p1) = 1000%nat ->
  length (Response.messages p2) = 1000%nat ->
  length (Response.messages p3) = 400%nat ->
  Response.has_more p1 = true ->
  Response.has_more p2 = true ->
  Response.has_more p3 = false ->
  page_newer_than Float.zero p1 = true ->
  _get_max_timestamp (PList (Response.messages p1)) = Ok c1 ->
  page_newer_than c1 p2 = true ->
  _get_max_timestamp (PList (Response.messages p2)) = Ok c2 ->
  page_newer_than c2 p3 = true ->
  (3 <= fuel)%nat ->
  exists res w',
    get_history fuel pageable_object channel_id Float.zero page_size w
      = (Ok res, w') /\
    length (calls w') = (length (calls w) + 3)%nat /\
    slack w' = s3 /\
    length res = 2400%nat /\
    sorted_by_timestamp res /\
    Permutation res
      (Response.messages p1 ++ Response.messages p2 ++ Response.messages p3).
Proof.
  intros Ha1 Ha2 Ha3 Hl1 Hl2 Hl3 Hm1 Hm2 Hm3 Hn1 Hc1 Hn2 Hc2 Hn3 Hfuel.
  destruct (page_newer_than_spec _ _ Hn1) as (ts1 & Hts1 & Hk1 & Hf1).
  destruct (page_newer_than_spec _ _ Hn2) as (ts2 & Hts2 & Hk2 & Hf2).
  destruct (page_newer_than_spec _ _ Hn3) as (ts3 & Hts3 & Hk3 & Hf3).
  assert (Hne1 : Response.messages p1 <> [])
    by (intros E; rewrite E in Hl1; discriminate).
  assert (Hne2 : Response.messages p2 <> [])
    by (intros E; rewrite E in Hl2; discriminate).
  destruct (finite_trunc c1 (page_maximum_finite _ _ _ Hts1 Hne1 Hf1 Hc1)) as [z1 Hz1].
  destruct (finite_trunc c2 (page_maximum_finite _ _ _ Hts2 Hne2 Hf2 Hc2)) as [z2 Hz2].
  destruct fuel as [|[|[|fuel]]]; try lia.
  (* first turn *)
  destruct (get_history_page_run pageable_object channel_id Float.zero page_size
              [] w 0 p1 s1 ts1 eq_refl (Ha1 _) Hts1) as (n1 & Hn1' & Hrun1).
  rewrite Hc1 in Hn1'. inversion Hn1'; subst n1. rewrite Hm1, Hk1 in Hrun1.
  (* second turn *)
  set (w1 := log_call _ (Ok p1) s1 w) in Hrun1.
  destruct (get_history_page_run pageable_object channel_id c1 page_size
              ([] ++ Response.messages p1) w1 z1 p2 s2 ts2 Hz1 (Ha2 _) Hts2)
    as (n2 & Hn2' & Hrun2).
  rewrite Hc2 in Hn2'. inversion Hn2'; subst n2. rewrite Hm2, Hk2 in Hrun2.
  (* third turn *)
  set (w2 := log_call _ (Ok p2) s2 w1) in Hrun2.
  destruct (get_history_page_run pageable_object channel_id c2 page_size
              (([] ++ Response.messages p1) ++ Response.messages p2) w2 z2 p3 s3 ts3
              Hz2 (Ha3 _) Hts3)
    as (n3 & _ & Hrun3).
  rewrite Hm3, Hk3 in Hrun3.
  set (w3 := log_call _ (Ok p3) s3 w2) in Hrun3.
  (* the sort *)
  set (all := ([] ++ Response.messages p1) ++ Response.messages p2) in *.
  assert (Hts : omap timestamp_of (all ++ Response.messages p3)
                = Ok ((ts1 ++ ts2) ++ ts3)).
  { subst all. simpl. apply omap_app; [by apply omap_app | assumption]. }
  destruct (py_sort_spec timestamp_of _ _ Hts) as (res & Hsort & Hperm & Hsorted).
  exists res, w3. split.
  { unfold get_history. unfold bind at 1.
    rewrite (get_history_loop_more _ _ _ _ _ _ _ _ _ _ Hrun1).
    rewrite (get_history_loop_more _ _ _ _ _ _ _ _ _ _ Hrun2).
    rewrite (get_history_loop_last _ _ _ _ _ _ _ _ _ Hrun3).
    unfold lift. by rewrite Hsort. }
  split.
  { subst w3 w2 w1. simpl. rewrite !length_app. simpl. lia. }
  split; [reflexivity |].
  assert (Hperm' : Permutation res
            (Response.messages p1 ++ Response.messages p2 ++ Response.messages p3)).
  { rewrite Hperm. subst all. simpl. by rewrite <- app_assoc. }
  split.
  { rewrite (Permutation_length Hperm'), !length_app. lia. }
  split; [| exact Hperm'].
  apply Hsorted. apply finite_no_nan.
  repeat (apply Forall_app; split); assumption.
Qed.

Lemma three_pages_give_2400_sorted_witness :
  let w := sample_world sample_disk in
  let p1 := page (seconds 1503400000 1000) true in
  let p2 := page (seconds 1503401000 1000) true in
  let p3 := page (seconds 1503402000 400) false in
  let c1 := Float.of_decimal false 1503401000000100 (-6) in
  let c2 := Float.of_decimal false 1503402000000100 (-6) in
  page_newer_than Float.zero p1 = true /\
  page_newer_than c1 p2 = true /\
  page_newer_than c2 p3 = true /\
  exists res w',
    get_history 3 (scripted fresh_pages) "C024BE91L" Float.zero 1000 w
      = (Ok res, w') /\
    length (calls w') = (length (calls w) + 3)%nat /\
    slack w' = 3%nat /\
    length res = 2400%nat /\
    sorted_by_timestamp res /\
    Permutation res
      (Response.messages p1 ++ Response.messages p2 ++ Response.messages p3).
Proof.
  intros w p1 p2 p3 c1 c2.
  assert (H1 : page_newer_than Float.zero p1 = true) by (vm_compute; reflexivity).
  assert (H2 : page_newer_than c1 p2 = true) by (vm_compute; reflexivity).
  assert (H3 : page_newer_than c2 p3 = true) by (vm_compute; reflexivity).
  split; [exact H1 |]. split; [exact H2 |]. split; [exact H3 |].
  apply (three_pages_give_2400_sorted (scripted fresh_pages) "C024BE91L" 1000 w
           p1 p2 p3 1%nat 2%nat 3%nat c1 c2 3%nat).
  - intros r. reflexivity.
  - intros r. reflexivity.
  - intros r. reflexivity.
  - vm_compute. reflexivity.
  - vm_compute. reflexivity.
  - vm_compute. reflexivity.
  - reflexivity.
  - reflexivity.
  - reflexivity.
  - exact H1.
  - vm_compute. reflexivity.
  - exact H2.
  - vm_compute. reflexivity.
  - exact H3.
  - lia.
Defined.

(** C9, as stated, fails: three pages of 1000, 1000 and 400 records with
    the flags true, true, false, where the second and the third page
    repeat the record at the cursor, give 2398 records after three
    calls. *)
Lemma three_pages_with_boundary_duplicates :
  let run := get_history 3 (scripted overlapping_pages) "C024BE91L" Float.zero 1000
               (sample_world sample_disk) in
  map (fun p => (length (Response.messages p), Response.has_more p)) overlapping_pages
    = [(1000%nat, true); (1000%nat, true); (400%nat, false)] /\
  length (calls run.2) = 3%nat /\
  exists res, run.1 = Ok res /\ length res = 2398%nat /\ length res <> 2400%nat.
Proof.
  intros run.
  split; [vm_compute; reflexivity |].
  split; [vm_compute; reflexivity |].
  assert (H : match run.1 with Ok res => length res = 2398%nat | _ => False end)
    by (vm_compute; reflexivity).
  destruct (run.1) as [res| |]; try contradiction.
  exists res. split; [reflexivity |]. split; [exact H |]. rewrite H. discriminate.
Qed.

(** ** The snapshot store *)

Section Store.
Context {PS : Type}.
Implicit Types (w : world PS).

Lemma bind_inv {A B} (c : M PS A) (k : A -> M PS B) w r w' :
  bind c k w = (r, w') ->
  (exists a w1, c w = (Ok a, w1) /\ k a w1 = (r, w')) \/
  (exists e, c w = (Raise e, w') /\ r = Raise e) \/
  (c w = (OutOfFuel, w') /\ r = OutOfFuel).
Proof.
  unfold bind. destruct (c w) as [[a|e|] w1]; intros H.
  - left. eauto.
  - right; left. inversion H; subst. eauto.
  - right; right. by inversion H; subst.
Qed.

Lemma os_makedirs_inv d w r w' :
  os_makedirs d w = (r, w') ->
  ((exists e, r = Raise e) /\ w' = w) \/
  (r = Ok tt /\ exists l, w' = set_disk (Fs.add_dirs (disk w) l) w).
Proof.
  unfold os_makedirs. intros H.
  repeat case_match; simplify_eq; eauto.
Qed.

Lemma NamedTemporaryFile_inv dir w r w' :
  NamedTemporaryFile dir w = (r, w') ->
  let tmp := Fs.join dir (tmpname w) in
  ((exists e, r = Raise e) /\ w' = w) \/
  (r = Ok {| name := tmp; ino := Fs.fresh_inode (disk w) |} /\
   Fs.exists_ (disk w) tmp = false /\
   w' = set_disk (Fs.create (disk w) tmp)
          (set_buffers (delete (Fs.fresh_inode (disk w)) (buffers w)) w)).
Proof.
  intros H tmp. unfold NamedTemporaryFile in H. fold tmp in H.
  repeat case_match; simplify_eq; eauto.
Qed.

Lemma write_json_cases path info w r w' :
  _write_json path info w = (r, w') ->
  let tmp := temporary_path path w in
  exists d1 hist1,
    same_files (disk w) d1 /\ Fs.dirs (disk w) ⊆ Fs.dirs d1 /\
    (d1 = disk w /\ hist1 = disk_history w \/ hist1 = disk w :: disk_history w) /\
    let i := Fs.fresh_inode d1 in
    let d2 := Fs.create d1 tmp in
    let d3 := Fs.move d2 tmp path i in
    ((* no temporary file *)
     (exists e, r = Raise e) /\ disk w' = d1 /\ disk_history w' = hist1
     \/ Fs.exists_ d1 tmp = false /\
        ((* the temporary file, and no rename *)
         (exists e, r = Raise e) /\
           ((disk w' = d2 /\ disk_history w' = d1 :: hist1)
            \/ (fails w SysWrite = false /\
                disk w' = Fs.store d2 i (Text info) /\
                disk_history w' = d2 :: d1 :: hist1))
         \/ (* the rename, then the flush *)
            (path ∉ Fs.dirs d1) /\
            fails w SysWrite = false /\ fails w SysRename = false /\
            (r = Ok tt /\ fails w SysClose = false /\
               disk w' = Fs.store d3 i (Text info) /\
               disk_history w' = d3 :: d2 :: d1 :: hist1
             \/ r = Raise OSError /\ fails w SysClose = true /\
                disk w' = d3 /\ disk_history w' = d2 :: d1 :: hist1))) /\
    fails w' = fails w /\ tmpname w' = tmpname w /\
    slack w' = slack w /\ calls w' = calls w.
Proof.
  intros H tmp. unfold _write_json in H.
  (* the directory *)
  unfold bind at 1, os_path_exists at 1 in H.
  assert (Hdir : exists w1 hist1,
             same_files (disk w) (disk w1) /\ Fs.dirs (disk w) ⊆ Fs.dirs (disk w1) /\
             (disk w1 = disk w /\ hist1 = disk_history w \/ hist1 = disk w :: disk_history w) /\
             disk_history w1 = hist1 /\ fails w1 = fails w /\ tmpname w1 = tmpname w /\
             slack w1 = slack w /\ calls w1 = calls w /\
             ((exists e, r = Raise e) /\ w' = w1 \/
              (let! out_file := NamedTemporaryFile (Fs.dirname path) in
               finally (do! json_dump info out_file in os_rename (name out_file) path)
                       (close out_file)) w1 = (r, w'))).
  { apply bind_inv in H as [(a & w1 & Hc & Hk) | [(e & Hc & ->) | [Hc ->]]].
    - exists w1. destruct (negb _).
      + apply os_makedirs_inv in Hc as [[[e He] ->] | [_ [l ->]]]; try discriminate.
        eexists. repeat split; [set_solver | by right | by right].
      + inversion Hc; subst. eexists. repeat split; [done | by left | by right].
    - exists w'. destruct (negb _).
      + apply os_makedirs_inv in Hc as [[_ ->] | [? _]]; try discriminate.
        eexists. repeat split; [done | by left | left; eauto].
      + discriminate.
    - destruct (negb _); [| discriminate].
      apply os_makedirs_inv in Hc as [[[e ?] _] | [? _]]; discriminate. }
  destruct Hdir as (w1 & hist1 & Hsame & Hsub & Hh & Hh1 & Hf & Ht & Hs & Hc & Hrest).
  exists (disk w1), hist1. split; [done |]. split; [done |]. split; [done |].
  subst tmp. unfold temporary_path. rewrite <- Ht.
  set (tmp := Fs.join (Fs.dirname path) (tmpname w1)). cbv zeta.
  destruct Hrest as [[He ->] | Hrest].
  { split; [| done]. left. done. }
  (* the temporary file *)
  apply bind_inv in Hrest as [(f & w2 & Hcreate & Hbody) | [(e & Hcreate & ->) | [Hcreate ->]]].
  2: { apply NamedTemporaryFile_inv in Hcreate as [[_ ->] | [? _]]; [| discriminate].
       split; [| done]. left. eauto. }
  2: { apply NamedTemporaryFile_inv in Hcreate as [[[e ?] _] | [? _]]; discriminate. }
  apply NamedTemporaryFile_inv in Hcreate as [[[e ?] _] | (Hfile & Hfresh & ->)];
    [discriminate |].
  inversion Hfile; subst f. clear Hfile. fold tmp in Hbody, Hfresh.
  (* the dump, the rename and the flush *)
  unfold finally, bind, json_dump, os_rename, close, set_disk, set_buffers in Hbody.
  simpl in Hbody. rewrite Hf in Hbody.
  destruct (fails w SysWrite) eqn:Hwrite; simpl in Hbody.
  { rewrite lookup_delete_eq in Hbody.
    inversion Hbody; subst; simpl. split; [| done].
    right. split; [done |]. left. split; [eauto | left; done]. }
  rewrite ?lookup_insert_eq in Hbody.
  destruct (fails w SysRename) eqn:Hrename; simpl in Hbody.
  { rewrite ?lookup_insert_eq in Hbody.
    destruct (fails w SysClose); inversion Hbody; subst; simpl;
      (split; [| done]); right; (split; [done |]); left;
      (split; [eauto |]); [left | right]; eauto. }
  destruct (bool_decide (path ∈ Fs.dirs (disk w1))) eqn:Hpd; simpl in Hbody.
  { rewrite ?lookup_insert_eq in Hbody.
    destruct (fails w SysClose); inversion Hbody; subst; simpl;
      (split; [| done]); right; (split; [done |]); left;
      (split; [eauto |]); [left | right]; eauto. }
  apply bool_decide_eq_false in Hpd.
  rewrite ?lookup_insert_eq in Hbody.
  destruct (fails w SysClose); inversion Hbody; subst; simpl;
    (split; [| done]); right; (split; [done |]); right;
    do 3 (split; [done |]); [right | left]; done.
Qed.

Lemma read_same_files (d d1 : fs) (p : string) :
  same_files d d1 -> Fs.read d1 p = Fs.read d p.
Proof. intros [Hn Hi]. unfold Fs.read. by rewrite Hn, Hi. Qed.

Lemma fresh_inode_unused (d : fs) (p : string) (j : nat) :
  Fs.names d !! p = Some j -> j <> Fs.fresh_inode d.
Proof.
  intros Hp E. unfold Fs.fresh_inode in E.
  eapply (is_fresh (dom (Fs.inodes d)
                    ∪ list_to_set (map snd (map_to_list (Fs.names d))))).
  rewrite <- E. apply elem_of_union_r, elem_of_list_to_set.
  apply list_elem_of_fmap. exists (p, j). split; [done |].
  by apply elem_of_map_to_list.
Qed.

Lemma read_create (d : fs) (tmp p : string) :
  tmp <> p -> Fs.read (Fs.create d tmp) p = Fs.read d p.
Proof.
  intros Hne. unfold Fs.read, Fs.create. simpl.
  rewrite lookup_insert_ne by done.
  destruct (Fs.names d !! p) as [j|] eqn:Hp; simpl; [| done].
  rewrite lookup_insert_ne; [done |].
  intros E. by apply (fresh_inode_unused d p j Hp).
Qed.

Lemma read_store_other (d : fs) (p : string) (i : nat) (c : content) :
  Fs.names d !! p <> Some i -> Fs.read (Fs.store d i c) p = Fs.read d p.
Proof.
  intros Hne. unfold Fs.read, Fs.store. simpl.
  destruct (Fs.names d !! p) as [j|]; simpl; [| done].
  rewrite lookup_insert_ne; [done | congruence].
Qed.

Lemma names_create_other (d : fs) (tmp p : string) :
  tmp <> p -> Fs.names (Fs.create d tmp) !! p <> Some (Fs.fresh_inode d).
Proof.
  intros Hne. simpl. rewrite lookup_insert_ne by done.
  intros Hp. by apply (fresh_inode_unused d p _ Hp).
Qed.

Lemma not_exists_no_name (d : fs) (p : string) :
  Fs.exists_ d p = false -> Fs.names d !! p = None /\ p ∉ Fs.dirs d.
Proof.
  unfold Fs.exists_. rewrite orb_false_iff, !bool_decide_eq_false.
  intros [Hd Hn]. split; [| done].
  destruct (Fs.names d !! p); [| done]. exfalso. apply Hn. eauto.
Qed.
End Store.

Lemma fresh_inode_same_files (d d1 : fs) :
  same_files d d1 -> Fs.fresh_inode d1 = Fs.fresh_inode d.
Proof. intros [Hn Hi]. unfold Fs.fresh_inode. by rewrite Hn, Hi. Qed.

(** When [_write_json] raises before the rename has taken place -- the
    rename is made to fail, or at least the failure is not that of the
    final flush, the one step after the rename -- the disk has only been
    through states in which [path] reads as before the call: neither
    the end state nor any state in between shows a reader anything
    else. *)
Theorem failed_save_leaves_target_untouched {PS} (path : string) (info : pyval)
    (w : world PS) (e : exn) (w' : world PS) :
  _write_json path info w = (Raise e, w') ->
  fails w SysRename = true \/ fails w SysClose = false ->
  temporary_path path w <> path ->
  target_untouched path w w'.
Proof.
  intros Hrun Hfault Htmp.
  destruct (write_json_cases path info w _ _ Hrun)
    as (d1 & hist1 & Hsame & _ & Hhist & Hcases & _).
  pose proof (read_same_files _ _ path Hsame) as Hd1.
  assert (Hd2 : Fs.read (Fs.create d1 (temporary_path path w)) path
                = Fs.read (disk w) path)
    by (rewrite read_create; done).
  assert (Hprefix : exists new, hist1 = new ++ disk_history w /\
            Forall (fun d => Fs.read d path = Fs.read (disk w) path) new).
  { destruct Hhist as [[_ ->] | ->]; [by exists [] | exists [disk w]].
    split; [done | by repeat constructor]. }
  destruct Hprefix as (new & -> & Hnew).
  unfold target_untouched.
  destruct Hcases as [(_ & -> & ->) | (_ & [(_ & Hb) | (_ & Hc)])].
  - exists new. split; [done | by constructor].
  - destruct Hb as [[-> ->] | (_ & -> & ->)].
    + exists (d1 :: new). split; [done | by repeat constructor].
    + exists (Fs.create d1 (temporary_path path w) :: d1 :: new).
      split; [done |]. repeat constructor; try done.
      rewrite read_store_other; [done |]. by apply names_create_other.
  - destruct Hc as (_ & Hrename & [(? & _) | (_ & Hclose & _)]); [discriminate |].
    destruct Hfault; congruence.
Qed.

(** A run that returns is another matter: the rename comes before the
    file is closed, so the state the disk is in between the two shows
    the target with the text flushed so far, not yet a whole document. *)
Remark save_renames_before_flush {PS} (path : string) (info : pyval)
    (w w' : world PS) :
  _write_json path info w = (Ok tt, w') ->
  exists d rest, disk_history w' = d :: rest /\ Fs.read d path = Some Partial.
Proof.
  intros Hrun.
  destruct (write_json_cases path info w _ _ Hrun)
    as (d1 & hist1 & _ & _ & _ & Hcases & _).
  destruct Hcases as [([e ?] & _) | (_ & [([e ?] & _) | (_ & _ & _ & Hc)])];
    try discriminate.
  destruct Hc as [(_ & _ & _ & ->) | (? & _)]; [| discriminate].
  eexists _, _. split; [reflexivity |].
  unfold Fs.read. simpl. rewrite lookup_insert_eq. simpl.
  apply lookup_insert_eq.
Qed.

Lemma failed_save_leaves_target_untouched_witness :
  let path := "channels/general.json" in
  let run := _write_json path (PDict new_snapshot) rename_fails_world in
  run = (Raise OSError, run.2) /\
  (fails rename_fails_world SysRename = true \/
   fails rename_fails_world SysClose = false) /\
  temporary_path path rename_fails_world <> path /\
  target_untouched path rename_fails_world run.2.
Proof.
  intros path run.
  assert (H1 : run = (Raise OSError, run.2)) by (vm_compute; reflexivity).
  assert (H2 : fails rename_fails_world SysRename = true \/
               fails rename_fails_world SysClose = false) by (left; reflexivity).
  assert (H3 : temporary_path path rename_fails_world <> path)
    by (vm_compute; discriminate).
  repeat (split; [assumption |]).
  exact (failed_save_leaves_target_untouched path (PDict new_snapshot)
           rename_fails_world OSError run.2 H1 H2 H3).
Defined.

(** C3.  The target is not replaced in one step.  Saving a new snapshot
    over a stored one, on a machine where nothing fails, returns and
    leaves the new snapshot, but on the way the disk is in a state where
    the target reads as partial text, neither the stored snapshot nor
    the new one: the rename is inside the [with] block and the text is
    flushed when the block closes.  When that flush fails the call
    raises and the target is left partial, the stored snapshot gone. *)
Theorem save_exposes_partial_target :
  let path := "channels/general.json" in
  let stored := Text (PDict {[ "messages" := PList [record "5.25"; record "5.5"] ]}) in
  let returned := _write_json path (PDict new_snapshot) (sample_world stored_disk) in
  let failed := _write_json path (PDict new_snapshot) close_fails_world in
  Fs.read stored_disk path = Some stored /\
  returned.1 = Ok tt /\
  Fs.read (disk returned.2) path = Some (Text (PDict new_snapshot)) /\
  (exists d rest, disk_history returned.2 = d :: rest /\
                  Fs.read d path = Some Partial) /\
  failed.1 = Raise OSError /\
  Fs.read (disk failed.2) path = Some Partial.
Proof.
  intros path stored returned failed.
  assert (Hret : returned = (Ok tt, returned.2)) by (vm_compute; reflexivity).
  split; [vm_compute; reflexivity |].
  split; [by rewrite Hret |].
  split; [vm_compute; reflexivity |].
  split; [exact (save_renames_before_flush path (PDict new_snapshot)
                   (sample_world stored_disk) returned.2 Hret) |].
  split; vm_compute; reflexivity.
Qed.

(** C4, as amended.  When [_write_json] returns, the temporary file has
    been renamed onto the target and nothing is left under the temporary
    name.  When it raises before the rename has succeeded, either no
    temporary file was created or the temporary file is still there
    under its name: the code has nothing that removes it. *)
Theorem save_renames_or_leaves_temporary_file {PS} (path : string) (info : pyval)
    (w : world PS) (r : outcome unit) (w' : world PS) :
  _write_json path info w = (r, w') ->
  fails w SysClose = false ->
  temporary_path path w <> path ->
  match r with
  | Ok _ =>
      Fs.names (disk w') !! temporary_path path w = None /\
      Fs.read (disk w') path = Some (Text info)
  | Raise _ =>
      Fs.names (disk w') = Fs.names (disk w) \/
      (Fs.names (disk w) !! temporary_path path w = None /\
       Fs.names (disk w')
         = <[temporary_path path w := Fs.fresh_inode (disk w)]> (Fs.names (disk w)))
  | OutOfFuel => False
  end.
Proof.
  intros Hrun Hclose Htmp.
  destruct (write_json_cases path info w _ _ Hrun)
    as (d1 & hist1 & Hsame & _ & _ & Hcases & _).
  pose proof (fresh_inode_same_files _ _ Hsame) as Hi1.
  destruct Hsame as [Hn Hi].
  destruct Hcases as [([e ->] & -> & _) | (Hfresh & [([e ->] & Hb) | (_ & Hc)])].
  - by left.
  - right. apply not_exists_no_name in Hfresh as [Hfresh _].
    rewrite Hn in Hfresh. split; [done |].
    destruct Hb as [[-> _] | (_ & -> & _)]; simpl; by rewrite Hi1, Hn.
  - destruct Hc as (_ & _ & [(-> & _ & -> & _) | (_ & Hc & _)]); [| congruence].
    simpl. split.
    + rewrite lookup_insert_ne by done. apply lookup_delete_eq.
    + unfold Fs.read. simpl. rewrite lookup_insert_eq. simpl.
      apply lookup_insert_eq.
Qed.

Lemma save_renames_or_leaves_temporary_file_witness :
  let path := "channels/general.json" in
  let w := rename_fails_world in
  let run := _write_json path (PDict new_snapshot) w in
  run = (Raise OSError, run.2) /\
  fails w SysClose = false /\
  temporary_path path w <> path /\
  (Fs.names (disk run.2) = Fs.names (disk w) \/
   (Fs.names (disk w) !! temporary_path path w = None /\
    Fs.names (disk run.2)
      = <[temporary_path path w := Fs.fresh_inode (disk w)]> (Fs.names (disk w)))).
Proof.
  intros path w run.
  assert (H1 : run = (Raise OSError, run.2)) by (vm_compute; reflexivity).
  assert (H2 : fails w SysClose = false) by reflexivity.
  assert (H3 : temporary_path path w <> path) by (vm_compute; discriminate).
  repeat (split; [assumption |]).
  exact (save_renames_or_leaves_temporary_file path (PDict new_snapshot)
           w (Raise OSError) run.2 H1 H2 H3).
Defined.

(** C4, as stated, fails: when the rename fails, [_write_json] raises and
    the temporary file, holding the whole new snapshot, stays in the
    directory next to the untouched target. *)
Lemma failed_rename_leaves_stray_temporary_file :
  let path := "channels/general.json" in
  let run := _write_json path (PDict new_snapshot) rename_fails_world in
  run.1 = Raise OSError /\
  Fs.exists_ (disk rename_fails_world) "channels/tmpk3x9wq_a" = false /\
  Fs.exists_ (disk run.2) "channels/tmpk3x9wq_a" = true /\
  Fs.read (disk run.2) "channels/tmpk3x9wq_a" = Some (Text (PDict new_snapshot)) /\
  Fs.read (disk run.2) path = Fs.read stored_disk path.
Proof. repeat split; vm_compute; reflexivity. Qed.

(** C6.  After a [_write_json] of a snapshot that returned,
    [_get_stored_messages] on the same path returns the snapshot's
    [messages], the same value; and [_write_json] does return when no
    system call fails, the directory is there, the temporary name is
    free and the target is not a directory.  (A file's text is the
    document it holds: [json.load] after [json.dump] is taken to give
    the document back.) *)
Theorem save_then_load_returns_messages {PS} (path : string)
    (info : gmap string pyval) (msgs : pyval) (w : world PS) :
  info !! "messages" = Some msgs ->
  fails w SysOpen = false ->
  (forall w', _write_json path (PDict info) w = (Ok tt, w') ->
              _get_stored_messages path w' = (Ok msgs, w')) /\
  ((forall s, fails w s = false) ->
   Fs.dirname path ∈ Fs.dirs (disk w) ->
   Fs.exists_ (disk w) (temporary_path path w) = false ->
   path ∉ Fs.dirs (disk w) ->
   exists w', _write_json path (PDict info) w = (Ok tt, w')).
Proof.
  intros Hmsgs Hopen. split.
  - intros w' Hrun.
    destruct (write_json_cases path (PDict info) w _ _ Hrun)
      as (d1 & hist1 & _ & _ & _ & Hcases & Hfails & _).
    destruct Hcases as [([e ?] & _) | (_ & [([e ?] & _) | (Hdir & _ & _ & Hc)])];
      try discriminate.
    destruct Hc as [(_ & _ & Hdisk & _) | (? & _)]; [| discriminate].
    unfold _get_stored_messages, bind, os_path_exists, open_read, lift, ret.
    rewrite Hdisk.
    assert (Hex : Fs.exists_
                    (Fs.store (Fs.move (Fs.create d1 (temporary_path path w))
                                 (temporary_path path w) path (Fs.fresh_inode d1))
                       (Fs.fresh_inode d1) (Text (PDict info))) path = true).
    { unfold Fs.exists_. simpl. rewrite lookup_insert_eq.
      apply orb_true_iff. right. apply bool_decide_eq_true. eauto. }
    rewrite Hex. simpl. unfold bind, open_read.
    rewrite Hfails, Hopen, Hdisk. simpl.
    rewrite (bool_decide_eq_false_2 _ Hdir).
    unfold Fs.read. simpl. rewrite lookup_insert_eq. simpl.
    rewrite lookup_insert_eq. simpl. by rewrite Hmsgs.
  - intros Hnofail Hdir Hfree Htarget.
    unfold _write_json, bind, os_path_exists, os_makedirs, NamedTemporaryFile,
      finally, json_dump, os_rename, close, ret, temporary_path in *.
    assert (Hex : Fs.exists_ (disk w) (Fs.dirname path) = true).
    { unfold Fs.exists_. by rewrite (bool_decide_eq_true_2 _ Hdir). }
    rewrite Hex. simpl. rewrite !Hnofail, Hfree.
    rewrite (bool_decide_eq_true_2 _ Hdir). simpl.
    repeat (rewrite ?Hnofail, ?lookup_insert_eq,
              ?(bool_decide_eq_false_2 _ Htarget); simpl).
    eauto.
Qed.

Lemma save_then_load_returns_messages_witness :
  let path := "channels/general.json" in
  let w := sample_world stored_disk in
  let msgs := PList [record "5.25"; record "5.5"; record "6.0"] in
  new_snapshot !! "messages" = Some msgs /\
  fails w SysOpen = false /\
  (forall w', _write_json path (PDict new_snapshot) w = (Ok tt, w') ->
              _get_stored_messages path w' = (Ok msgs, w')) /\
  exists w', _write_json path (PDict new_snapshot) w = (Ok tt, w').
Proof.
  intros path w msgs.
  assert (H1 : new_snapshot !! "messages" = Some msgs) by (vm_compute; reflexivity).
  assert (H2 : fails w SysOpen = false) by reflexivity.
  destruct (save_then_load_returns_messages path new_snapshot msgs w H1 H2)
    as [Hload Hsave].
  repeat (split; [assumption |]).
  apply Hsave.
  - intros s. reflexivity.
  - vm_compute. set_solver.
  - vm_compute. reflexivity.
  - vm_compute. set_solver.
Defined.

(** ** The merge step *)

Section Append.
Context {PS : Type}.
Implicit Types (w : world PS).

Lemma get_history_same_machine fuel (pageable_object : pageable PS) channel_id
    since page_size w res w' :
  get_history fuel pageable_object channel_id since page_size w = (Ok res, w') ->
  same_machine w w'.
Proof.
  unfold get_history, bind, lift.
  destruct (get_history_loop _ _ _ _ _ _ _) as [[acc| |] w1] eqn:Hloop;
    try discriminate.
  intros H. inversion H; subst.
  by apply get_history_loop_inv in Hloop as (_ & _ & _ & _ & _ & _ & Hsame).
Qed.

(** Reading the stored messages leaves the world as it is. *)
Lemma get_stored_messages_reads_only path w :
  (_get_stored_messages path w).2 = w.
Proof.
  unfold _get_stored_messages, bind, os_path_exists, open_read, lift, ret.
  repeat case_match; simplify_eq/=; done.
Qed.
End Append.

(** C5.  When the fetch returns the empty sequence,
    [_append_new_messages] returns at once: the disk is the one it
    started from and it has been through no other state (nothing was
    written); only the provider and the call log have moved.  The
    function returns [None] on this path as on the other. *)
Theorem no_new_messages_no_write {PS} (fuel : nat) (slack_api_handle : pageable PS)
    (item_id output_path : string) (info : gmap string pyval)
    (w w1 : world PS) (messages : pyval) (since : float) :
  (_get_stored_messages output_path w).1 = Ok messages ->
  _get_max_timestamp messages = Ok since ->
  get_history fuel slack_api_handle item_id since 1000 w = (Ok [], w1) ->
  _append_new_messages fuel slack_api_handle item_id output_path info w
    = (Ok tt, w1) /\
  disk w1 = disk w /\ disk_history w1 = disk_history w /\
  buffers w1 = buffers w.
Proof.
  intros Hstored Hsince Hfetch.
  pose proof (get_stored_messages_reads_only output_path w) as Hw.
  destruct (_get_stored_messages output_path w) as [r0 w0] eqn:Hload.
  simpl in Hstored, Hw. subst r0 w0.
  split.
  - unfold _append_new_messages. unfold bind at 1. rewrite Hload.
    unfold bind at 1, lift at 1. rewrite Hsince.
    unfold bind at 1. by rewrite Hfetch.
  - by destruct (get_history_same_machine _ _ _ _ _ _ _ _ Hfetch)
      as (? & ? & ? & _).
Qed.

(** A second run: the snapshot holds the records up to [5.5] and the
    provider, inclusive at the bound, returns those two records again. *)
Lemma no_new_messages_no_write_witness :
  let w := sample_world stored_disk in
  let provider := scripted [page ["5.25"; "5.5"] false] in
  let path := "channels/general.json" in
  let stored := PList [record "5.25"; record "5.5"] in
  let since := Float.of_decimal false 55 (-1) in
  let w1 := (get_history 5 provider "C024BE91L" since 1000 w).2 in
  (_get_stored_messages path w).1 = Ok stored /\
  _get_max_timestamp stored = Ok since /\
  get_history 5 provider "C024BE91L" since 1000 w = (Ok [], w1) /\
  _append_new_messages 5 provider "C024BE91L" path new_snapshot w = (Ok tt, w1) /\
  disk w1 = disk w /\ disk_history w1 = disk_history w /\ buffers w1 = buffers w.
Proof.
  intros w provider path stored since w1.
  assert (H1 : (_get_stored_messages path w).1 = Ok stored)
    by (vm_compute; reflexivity).
  assert (H2 : _get_max_timestamp stored = Ok since) by (vm_compute; reflexivity).
  assert (H3 : get_history 5 provider "C024BE91L" since 1000 w = (Ok [], w1))
    by (vm_compute; reflexivity).
  repeat (split; [assumption |]).
  exact (no_new_messages_no_write 5 provider "C024BE91L" path new_snapshot
           w w1 stored since H1 H2 H3).
Defined.

(** ** Further properties of the fetch, the store and the merge *)

Section FetchExtras.
Context {PS : Type}.
Implicit Types (w : world PS) (pageable_object : pageable PS).

Lemma same_machine_refl w : same_machine w w.
Proof. by repeat split. Qed.

Lemma get_history_page_same_machine pageable_object channel_id c page_size acc w :
  same_machine w (get_history_page pageable_object channel_id c page_size acc w).2.
Proof.
  unfold get_history_page, bind, lift, call_history.
  destruct (Float.trunc c) as [z| |]; simpl; try apply same_machine_refl.
  destruct (pageable_object (slack w) _) as [[p| |] s]; simpl;
    try apply log_call_same_machine.
  destruct (ofilter _ _); simpl; try apply log_call_same_machine.
  destruct (Response.has_more p); simpl; try apply log_call_same_machine.
  destruct (_get_max_timestamp _); simpl; apply log_call_same_machine.
Qed.

Lemma get_history_loop_same_machine fuel pageable_object channel_id page_size :
  forall c acc w,
    same_machine w
      (get_history_loop fuel pageable_object channel_id c page_size acc w).2.
Proof.
  induction fuel as [|fuel IH]; intros c acc w; simpl.
  - apply same_machine_refl.
  - unfold bind at 1.
    pose proof (get_history_page_same_machine pageable_object channel_id c
                  page_size acc w) as Hpage.
    destruct (get_history_page _ _ _ _ _ _) as [[[acc1 [n|]]| |] w1]; simpl in *;
      try exact Hpage.
    eapply same_machine_trans; [exact Hpage | apply IH].
Qed.

Lemma get_history_page_calls pageable_object channel_id c page_size acc w :
  exists new,
    calls (get_history_page pageable_object channel_id c page_size acc w).2
      = calls w ++ new.
Proof.
  unfold get_history_page, bind, lift, call_history.
  destruct (Float.trunc c) as [z| |]; simpl;
    try (exists []; by rewrite app_nil_r).
  destruct (pageable_object (slack w) _) as [[p| |] s]; simpl; eauto.
  destruct (ofilter _ _); simpl; eauto.
  destruct (Response.has_more p); simpl; eauto.
  destruct (_get_max_timestamp _); simpl; eauto.
Qed.

Lemma get_history_loop_calls fuel pageable_object channel_id page_size :
  forall c acc w,
    exists new,
      calls (get_history_loop fuel pageable_object channel_id c page_size acc w).2
        = calls w ++ new.
Proof.
  induction fuel as [|fuel IH]; intros c acc w; simpl.
  - exists []. by rewrite app_nil_r.
  - unfold bind at 1.
    destruct (get_history_page_calls pageable_object channel_id c
                page_size acc w) as [new1 Hpage].
    destruct (get_history_page _ _ _ _ _ _) as [[[acc1 [n|]]| |] w1]; simpl in *;
      eauto.
    destruct (IH n acc1 w1) as [new2 Hrest].
    exists (new1 ++ new2). by rewrite Hrest, Hpage, app_assoc.
Qed.

(** The records that pass the filter have timestamps that parse, and none
    of them is a NaN. *)
Lemma kept_timestamps (c : float) (l : list pyval) :
  exists ks, omap timestamp_of (List.filter (exceeds c) l) = Ok ks /\ no_nan ks.
Proof.
  induction l as [|x l (ks & Hks & Hnan)]; simpl.
  - exists []. split; [done | constructor].
  - unfold exceeds at 1.
    destruct (SORT_MESSAGES_BY_TIMESTAMP x) as [t| |] eqn:Ex; eauto.
    destruct (Float.gt t c) eqn:Hgt; eauto.
    exists (t :: ks). simpl. rewrite Ex, Hks. simpl. split; [done |].
    constructor; [| done].
    by destruct (FloatOrder.lt_not_nan _ _ Hgt).
Qed.

Lemma kept_by_cursor_timestamps (tr : list (float * response)) :
  exists ks, omap timestamp_of (kept_by_cursor tr) = Ok ks /\ no_nan ks.
Proof.
  unfold kept_by_cursor.
  induction tr as [|[c p] tr (ks & Hks & Hnan)]; simpl.
  - exists []. split; [done | constructor].
  - destruct (kept_timestamps c (Response.messages p)) as (ks1 & Hks1 & Hnan1).
    exists (ks1 ++ ks). split; [by apply omap_app |].
    by apply Forall_app.
Qed.
End FetchExtras.

Lemma timestamps_parsed (l : list pyval) (ks : list float) :
  omap timestamp_of l = Ok ks -> no_nan ks ->
  Forall (fun message => exists t, timestamp_of message = Ok t /\
                                   Float.is_nan t = false) l.
Proof.
  revert ks. induction l as [|x l IH]; intros ks Hks Hnan; [constructor |].
  simpl in Hks. destruct (SORT_MESSAGES_BY_TIMESTAMP x) as [t| |] eqn:Ex;
    simpl in Hks; try discriminate.
  destruct (omap _ l) as [ks0| |] eqn:El; simpl in Hks; try discriminate.
  inversion Hks; subst. inversion Hnan; subst.
  constructor; [eauto |]. eapply IH; eauto.
Qed.

(** Whenever [get_history] returns, its result is in ascending order of
    timestamp, and every record in it has a timestamp that parses to a
    number: a record only passes the filter when its timestamp compares
    greater than the cursor, which a NaN never does. *)
Theorem fetch_result_is_sorted {PS} (fuel : nat) (pageable_object : pageable PS)
    (channel_id : string) (since : float) (page_size : Z)
    (w : world PS) (res : list pyval) (w' : world PS) :
  get_history fuel pageable_object channel_id since page_size w = (Ok res, w') ->
  sorted_by_timestamp res /\
  Forall (fun message => exists t, timestamp_of message = Ok t /\
                                   Float.is_nan t = false) res.
Proof.
  unfold get_history, bind, lift.
  destruct (get_history_loop _ _ _ _ _ _ _) as [[acc| |] w1] eqn:Hloop;
    try discriminate.
  intros H. inversion H as [[Hsort Hw]]. subst w1.
  apply get_history_loop_inv in Hloop as (tr & _ & _ & _ & _ & Hacc & _).
  simpl in Hacc. subst acc.
  destruct (kept_by_cursor_timestamps tr) as (ks & Hks & Hnan).
  destruct (py_sort_spec timestamp_of _ _ Hks) as (r & Hr & Hperm & Hsorted).
  rewrite Hr in Hsort. inversion Hsort; subst r.
  destruct (Hsorted Hnan) as (ks' & Hks' & Hs).
  split; [by exists ks' |].
  rewrite Hperm. by eapply timestamps_parsed.
Qed.

Lemma fetch_result_is_sorted_witness :
  let run := get_history 2 (scripted [page_a; page_b]) "C024BE91L" Float.zero 1000
               (sample_world sample_disk) in
  run = (Ok (map record ["5.25"; "5.5"; "6.0"]), run.2) /\
  sorted_by_timestamp (map record ["5.25"; "5.5"; "6.0"]) /\
  Forall (fun message => exists t, timestamp_of message = Ok t /\
                                   Float.is_nan t = false)
    (map record ["5.25"; "5.5"; "6.0"]).
Proof.
  intros run.
  assert (Hrun : run = (Ok (map record ["5.25"; "5.5"; "6.0"]), run.2))
    by (vm_compute; reflexivity).
  split; [exact Hrun |].
  exact (fetch_result_is_sorted 2 (scripted [page_a; page_b]) "C024BE91L"
           Float.zero 1000 (sample_world sample_disk) _ _ Hrun).
Defined.

(** However [get_history] ends -- it returns, raises or is still
    running -- it has written nothing: disk, disk history and buffers
    are those it started with, and the call log has only grown. *)
Theorem fetch_touches_only_the_service {PS} (fuel : nat)
    (pageable_object : pageable PS) (channel_id : string) (since : float)
    (page_size : Z) (w : world PS) :
  let w' := (get_history fuel pageable_object channel_id since page_size w).2 in
  disk w' = disk w /\ disk_history w' = disk_history w /\
  buffers w' = buffers w /\
  exists new, calls w' = calls w ++ new.
Proof.
  intros w'. subst w'. unfold get_history, bind, lift.
  pose proof (get_history_loop_same_machine fuel pageable_object channel_id
                page_size since [] w) as (Hd & Hh & Hb & _).
  pose proof (get_history_loop_calls fuel pageable_object channel_id
                page_size since [] w) as Hc.
  destruct (get_history_loop _ _ _ _ _ _ _) as [[acc| |] w1]; simpl in *; done.
Qed.

Section StoreExtras.
Context {PS : Type}.
Implicit Types (w : world PS).


Lemma get_history_same_disk fuel (pageable_object : pageable PS) channel_id
    since page_size w :
  same_machine w (get_history fuel pageable_object channel_id since page_size w).2.
Proof.
  unfold get_history, bind, lift.
  pose proof (get_history_loop_same_machine fuel pageable_object channel_id
                page_size since [] w) as H.
  by destruct (get_history_loop _ _ _ _ _ _ _) as [[acc| |] w1].
Qed.
End StoreExtras.



(** When the fetch raises, [_append_new_messages] raises the same
    exception and the disk is as it was: no write comes before the end
    of the fetch. *)
Theorem failed_fetch_writes_nothing {PS} (fuel : nat)
    (slack_api_handle : pageable PS) (item_id output_path : string)
    (info : gmap string pyval) (w : world PS)
    (messages : pyval) (since : float) (e : exn) :
  (_get_stored_messages output_path w).1 = Ok messages ->
  _get_max_timestamp messages = Ok since ->
  (get_history fuel slack_api_handle item_id since 1000 w).1 = Raise e ->
  let run := _append_new_messages fuel slack_api_handle item_id output_path info w in
  run.1 = Raise e /\ disk run.2 = disk w /\ disk_history run.2 = disk_history w.
Proof.
  intros Hstored Hsince Hfetch run.
  pose proof (get_stored_messages_reads_only output_path w) as Hw.
  destruct (_get_stored_messages output_path w) as [r0 w0] eqn:Hload.
  simpl in Hstored, Hw. subst r0 w0.
  pose proof (get_history_same_disk fuel slack_api_handle item_id since 1000 w)
    as (Hd & Hh & _).
  assert (Hrun : run = (Raise e,
                        (get_history fuel slack_api_handle item_id since 1000 w).2)).
  { subst run. unfold _append_new_messages. unfold bind at 1. rewrite Hload.
    unfold bind at 1, lift at 1. rewrite Hsince.
    unfold bind at 1.
    destruct (get_history _ _ _ _ _ _) as [r1 w1]. simpl in Hfetch. by subst r1. }
  rewrite Hrun. by repeat split.
Qed.

Lemma failed_fetch_writes_nothing_witness :
  let w := sample_world stored_disk in
  let provider := scripted [] in
  let path := "channels/general.json" in
  let stored := PList [record "5.25"; record "5.5"] in
  let since := Float.of_decimal false 55 (-1) in
  let run := _append_new_messages 5 provider "C024BE91L" path new_snapshot w in
  (_get_stored_messages path w).1 = Ok stored /\
  _get_max_timestamp stored = Ok since /\
  (get_history 5 provider "C024BE91L" since 1000 w).1 = Raise ProviderError /\
  run.1 = Raise ProviderError /\
  disk run.2 = disk w /\ disk_history run.2 = disk_history w.
Proof.
  intros w provider path stored since run.
  assert (H1 : (_get_stored_messages path w).1 = Ok stored)
    by (vm_compute; reflexivity).
  assert (H2 : _get_max_timestamp stored = Ok since) by (vm_compute; reflexivity).
  assert (H3 : (get_history 5 provider "C024BE91L" since 1000 w).1
               = Raise ProviderError) by (vm_compute; reflexivity).
  repeat (split; [assumption |]).
  exact (failed_fetch_writes_nothing 5 provider "C024BE91L" path new_snapshot
           w stored since ProviderError H1 H2 H3).
Defined.

Lemma after_last_slash_none (r : list ascii) :
  Forall (fun c => c <> "/"%char) r -> Fs.after_last_slash r = [].
Proof.
  induction 1 as [|c r Hc _ IH]; [reflexivity |].
  destruct c as [[] [] [] [] [] [] [] []]; simpl; try exact IH.
  congruence.
Qed.

Lemma dirname_without_slash (path : string) :
  Forall (fun c => c <> "/"%char) (list_ascii_of_string path) ->
  Fs.dirname path = "".
Proof.
  intros H. unfold Fs.dirname.
  rewrite after_last_slash_none; [reflexivity |].
  apply Forall_forall. intros c Hc. rewrite Forall_forall in H. apply H.
  by apply list_elem_of_In, in_rev, list_elem_of_In.
Qed.

(** For a path without a slash, [os.path.dirname] gives the empty
    string, which does not exist, and [os.makedirs('')] raises:
    [_write_json] raises and the machine is as it was.  (The program
    itself writes its metadata to ['./metadata.json'].) *)
Theorem save_to_bare_name_raises {PS} (path : string) (info : pyval) (w : world PS) :
  Forall (fun c => c <> "/"%char) (list_ascii_of_string path) ->
  Fs.exists_ (disk w) "" = false ->
  exists e, _write_json path info w = (Raise e, w).
Proof.
  intros Hbare Hroot. apply dirname_without_slash in Hbare.
  unfold _write_json, bind, os_path_exists, os_makedirs.
  rewrite Hbare, Hroot. simpl.
  destruct (fails w SysMakedirs); eauto.
Qed.

Lemma save_to_bare_name_raises_witness :
  let w := sample_world sample_disk in
  Forall (fun c => c <> "/"%char) (list_ascii_of_string "metadata.json") /\
  Fs.exists_ (disk w) "" = false /\
  exists e, _write_json "metadata.json" (PDict new_snapshot) w = (Raise e, w).
Proof.
  intros w.
  assert (H1 : Forall (fun c => c <> "/"%char) (list_ascii_of_string "metadata.json"))
    by (repeat constructor; discriminate).
  assert (H2 : Fs.exists_ (disk w) "" = false) by (vm_compute; reflexivity).
  repeat (split; [assumption |]).
  exact (save_to_bare_name_raises "metadata.json" (PDict new_snapshot) w H1 H2).
Defined.

(** [_get_stored_messages] gives the empty list only when nothing
    exists at the path or the stored document has the empty list under
    ['messages']: a file that cannot be opened, partial text or a
    document without the key is never read as an empty history. *)
Theorem load_is_empty_only_for_absent_or_empty {PS} (path : string) (w : world PS) :
  (_get_stored_messages path w).1 = Ok (PList []) ->
  Fs.exists_ (disk w) path = false \/
  exists doc, Fs.read (disk w) path = Some (Text doc) /\
              py_getitem doc "messages" = Ok (PList []).
Proof.
  unfold _get_stored_messages, bind, os_path_exists, open_read, lift, ret.
  destruct (Fs.exists_ (disk w) path); simpl; [| by left].
  destruct (fails w SysOpen); simpl; [discriminate |].
  destruct (bool_decide _); simpl; [discriminate |].
  destruct (Fs.read (disk w) path) as [[doc|]|]; simpl; try discriminate.
  intros H. right. eauto.
Qed.

Lemma load_is_empty_only_for_absent_or_empty_witness :
  let w := sample_world sample_disk in
  let path := "channels/general.json" in
  (_get_stored_messages path w).1 = Ok (PList []) /\
  (Fs.exists_ (disk w) path = false \/
   exists doc, Fs.read (disk w) path = Some (Text doc) /\
               py_getitem doc "messages" = Ok (PList [])).
Proof.
  intros w path.
  assert (H1 : (_get_stored_messages path w).1 = Ok (PList []))
    by (vm_compute; reflexivity).
  split; [exact H1 |].
  exact (load_is_empty_only_for_absent_or_empty path w H1).
Defined.
